(** * Document service: upload validation and storage pipeline

    A shallow embedding of the document service
    ([utils/file_validator.py], [models/document.py],
    [services/storage_service.py], [controllers/document_controller.py],
    [config.py]) and the properties of its specification.

    Conventions of the embedding:
    - a Python [str] is the [string] of the bytes of its UTF-8 encoding, so
      an ASCII character is one character of the [string]; [bytes] is a
      list of bytes;
    - a Python [dict] with string keys is a [gmap string _];
    - a call that may raise returns a [result]; code with effects on the
      object store, the metadata collection, the log or the clock is a
      function [World -> result A * World] (an exception keeps the effects
      made before it was raised);
    - the external collaborators (libmagic, SHA-256, clamd, the S3
      presigner) are the variables of [Section Service]. *)

From Stdlib Require Import ZArith Ascii String List Bool Lia DecimalString.
From stdpp Require Import base option list gmap strings.

Local Open Scope string_scope.
Local Open Scope Z_scope.

(** ** Python strings *)

Module Str.

(** [needle in hay], for a needle that is a prefix somewhere in [hay]. *)
Fixpoint contains (needle hay : string) : bool :=
  String.prefix needle hay ||
  match hay with
  | EmptyString => false
  | String _ rest => contains needle rest
  end.

(** [s.startswith(p)] *)
Definition startswith (p s : string) : bool := String.prefix p s.

(** [s.replace(old, '')] for a non-empty [old]: occurrences are removed
    from left to right without overlap.  [skip] counts the characters of
    the occurrence being removed that are still to be dropped. *)
Fixpoint remove_from (old : string) (skip : nat) (s : string) : string :=
  match s with
  | EmptyString => EmptyString
  | String c rest =>
      match skip with
      | S k => remove_from old k rest
      | O =>
          if String.prefix old s
          then remove_from old (Nat.pred (String.length old)) rest
          else String c (remove_from old 0 rest)
      end
  end.

Definition remove (old s : string) : string := remove_from old 0 s.

(** Whether [s] is made of ASCII characters only ([s.isascii()]). *)
Fixpoint is_ascii (s : string) : bool :=
  match s with
  | EmptyString => true
  | String c rest => (N_of_ascii c <? 128)%N && is_ascii rest
  end.

(** [c.lower()] on an ASCII character. *)
Definition lower_ascii (c : ascii) : ascii :=
  let n := N_of_ascii c in
  if ((65 <=? n) && (n <=? 90))%N then ascii_of_N (n + 32) else c.

(** [s.lower()] of an ASCII string [s]: the letters [A-Z] are lowered and
    nothing else changes.  Outside ASCII, Python lowers by the Unicode
    tables, which this development does not have: what is proved of a
    comparison of lowered strings is proved for ASCII strings, with
    [is_ascii] as a hypothesis. *)
Fixpoint lower (s : string) : string :=
  match s with
  | EmptyString => EmptyString
  | String c rest => String (lower_ascii c) (lower rest)
  end.

(** The part of [s] after its last ['/'], with [acc] the part read since
    the last ['/'] seen so far. *)
Fixpoint after_last_slash (acc s : string) : string :=
  match s with
  | EmptyString => acc
  | String c rest =>
      if Ascii.eqb c "/"%char
      then after_last_slash EmptyString rest
      else after_last_slash (acc ++ String c EmptyString) rest
  end.

(** The characters of the class [[a-zA-Z0-9._-]]. *)
Definition safe_char (c : ascii) : bool :=
  let n := N_of_ascii c in
  (((97 <=? n) && (n <=? 122)) || ((65 <=? n) && (n <=? 90))
   || ((48 <=? n) && (n <=? 57)) || (n =? 46) || (n =? 95) || (n =? 45))%N.

(** UTF-8: a continuation byte is [10xxxxxx]; the first byte of a
    character outside ASCII says how many continuation bytes follow it. *)
Definition continuation_byte (c : ascii) : bool :=
  let n := N_of_ascii c in ((128 <=? n) && (n <? 192))%N.

Definition continuation_bytes (c : ascii) : nat :=
  let n := N_of_ascii c in
  if (n <? 192)%N then 0%nat
  else if (n <? 224)%N then 1%nat
  else if (n <? 240)%N then 2%nat
  else 3%nat.

(** [re.sub(r'[^a-zA-Z0-9._-]', '_', s)].  The pattern matches one character
    of the [str] at a time, so a character outside ASCII, which is several
    bytes of the encoding, becomes one ['_']: its first byte is replaced and
    the [pending] continuation bytes that belong to it are dropped. *)
Fixpoint sub_unsafe_from (pending : nat) (s : string) : string :=
  match s with
  | EmptyString => EmptyString
  | String c rest =>
      match pending with
      | S k =>
          if continuation_byte c then sub_unsafe_from k rest
          else String (if safe_char c then c else "_"%char)
                      (sub_unsafe_from (continuation_bytes c) rest)
      | O =>
          String (if safe_char c then c else "_"%char)
                 (sub_unsafe_from (continuation_bytes c) rest)
      end
  end.

Definition sub_unsafe (s : string) : string := sub_unsafe_from 0 s.

(** [x in l] for a list of strings. *)
Definition mem (x : string) (l : list string) : bool :=
  existsb (String.eqb x) l.

(** Whether the character [c] occurs in [s]. *)
Fixpoint has_char (c : ascii) (s : string) : bool :=
  match s with
  | EmptyString => false
  | String a rest => Ascii.eqb a c || has_char c rest
  end.

(** [not s]: the empty string is falsy. *)
Definition is_empty (s : string) : bool :=
  match s with EmptyString => true | _ => false end.

End Str.

(** ** File validation ([utils/file_validator.py]) *)

(** [os.path.basename] of [posixpath]: what follows the last ['/']. *)
Definition basename (p : string) : string := Str.after_last_slash "" p.

Definition forbidden_chars : list string :=
  ["/"; "\"; ".."; ";"; "&"; "|"; "*"; "?"; "<"; ">"; "^"; "$"].

(** The loop [for char in forbidden_chars: filename = filename.replace(char, '')]. *)
Definition sanitize_filename (filename : string) : string :=
  fold_left (fun name char => Str.remove char name) forbidden_chars
            (basename filename).

(** ** Exceptions and results *)

(** [str(z)] for an integer. *)
Definition dec (z : Z) : string := NilZero.string_of_int (Z.to_int z).

Inductive exn : Type :=
| ValueError (msg : string)
| KeyError (key : string)
| TypeError (msg : string)
| OverflowError (msg : string)
| MagicException (msg : string)      (* raised by libmagic *)
| ClamdError (msg : string)          (* raised by the clamd client *)
| ClientError (code : string)        (* botocore: an S3 call failed *)
| OperationError (msg : string)      (* mongoengine: a collection call failed *)
| ValidationError (msg : string)     (* mongoengine.ValidationError *)
| RetryError (last : exn)            (* tenacity: the attempts are used up *)
| HTTPException (status_code : Z) (detail : string).

(** [type(e).__name__] *)
Definition exn_name (e : exn) : string :=
  match e with
  | ValueError _ => "ValueError"
  | KeyError _ => "KeyError"
  | TypeError _ => "TypeError"
  | OverflowError _ => "OverflowError"
  | MagicException _ => "MagicException"
  | ClamdError _ => "ConnectionError"
  | ClientError _ => "ClientError"
  | OperationError _ => "OperationError"
  | ValidationError _ => "ValidationError"
  | RetryError _ => "RetryError"
  | HTTPException _ _ => "HTTPException"
  end.

(** [str(e)].  For tenacity's [RetryError] it is the [repr] of the last
    attempt's [Future], which names the class of the exception the attempt
    raised, after an address that differs from run to run and is written
    [0x0] here. *)
Definition exn_str (e : exn) : string :=
  match e with
  | ValueError msg | TypeError msg | OverflowError msg | MagicException msg
  | ClamdError msg | OperationError msg | ValidationError msg => msg
  | KeyError key => "'" ++ key ++ "'"
  | ClientError code => "An error occurred (" ++ code ++ ")"
  | RetryError last =>
      "RetryError[<Future at 0x0 state=finished raised " ++ exn_name last ++ ">]"
  | HTTPException status_code detail => dec status_code ++ ": " ++ detail
  end.

Inductive result (A : Type) : Type :=
| Ok (a : A)
| Raise (e : exn).
Arguments Ok {A} a.
Arguments Raise {A} e.

Definition bytes : Type := list Byte.byte.

(** ** Configuration ([config.py]) *)

(** The values the configuration dictionaries hold. *)
Inductive cfg_value : Type :=
| CInt (z : Z)
| CBool (b : bool)
| CStr (s : string)
| CList (l : list string)
| CDict (d : list (string * Z)).

(** Python truthiness of a configuration value. *)
Definition truthy (v : cfg_value) : bool :=
  match v with
  | CInt z => negb (z =? 0)
  | CBool b => b
  | CStr s => negb (Str.is_empty s)
  | CList l => match l with [] => false | _ => true end
  | CDict d => match d with [] => false | _ => true end
  end.

(** The environment [load_config] reads.  A required variable that is
    unset or empty is [None].  An integer setting is the outcome of
    [int(os.getenv(NAME, default))]: the integer, or the [ValueError] that
    [int] raises on a text that is no integer literal. *)
Record Environment : Type := {
  ENVIRONMENT : string;
  DEBUG : bool;
  AWS_ACCESS_KEY_ID : option string;
  AWS_SECRET_ACCESS_KEY : option string;
  AWS_REGION : option string;
  S3_BUCKET_NAME : option string;
  MONGODB_URI : option string;
  MAX_FILE_SIZE_MB_env : result Z;
  S3_STORAGE_CLASS : string;
  MONGODB_POOL_SIZE : result Z;
  MAX_UPLOAD_RETRIES : result Z;
  PRESIGNED_URL_EXPIRY : result Z;
  UPLOAD_CHUNK_SIZE : result Z;
  VIRUS_SCAN_ENABLED : bool;
  MAX_DOCUMENT_PAGES : result Z;
  MIN_DOCUMENT_DPI : result Z;
  MAX_IMAGE_DIMENSION : result Z;
  LOG_ROTATION_SIZE_MB : result Z;
  LOG_RETENTION_DAYS : result Z
}.

Record Config : Type := {
  config_storage : gmap string cfg_value;   (* config['storage_config'] *)
  config_service : gmap string cfg_value    (* config['service_config'] *)
}.

Definition opt_str (o : option string) : string := default "" o.

Definition allowed_mime_types_config : list string :=
  [ "application/pdf"; "image/jpeg"; "image/png"; "application/msword";
    "application/vnd.openxmlformats-officedocument.wordprocessingml.document" ].

(** A computation that may raise, continued when it does not. *)
Definition result_bind {A B} (r : result A) (k : A -> result B) : result B :=
  match r with
  | Ok a => k a
  | Raise e => Raise e
  end.

Notation "'let+' x ':=' r 'in' k" := (result_bind r (fun x => k))
  (at level 10, x name, r at level 100, k at level 200).

(** The integer settings in the order in which [load_config] evaluates
    them. *)
Definition integer_settings (env : Environment) : list (result Z) :=
  [ MAX_FILE_SIZE_MB_env env; MONGODB_POOL_SIZE env; MAX_UPLOAD_RETRIES env;
    PRESIGNED_URL_EXPIRY env; UPLOAD_CHUNK_SIZE env; MAX_DOCUMENT_PAGES env;
    MIN_DOCUMENT_DPI env; MAX_IMAGE_DIMENSION env; LOG_ROTATION_SIZE_MB env;
    LOG_RETENTION_DAYS env ].

(** The first exception in a list of outcomes. *)
Fixpoint first_error {A} (outcomes : list (result A)) : option exn :=
  match outcomes with
  | [] => None
  | Ok _ :: rest => first_error rest
  | Raise e :: _ => Some e
  end.

(** The names of the required variables that are unset or empty. *)
Definition missing_vars (env : Environment) : list string :=
  omap (fun '(name, value) =>
          match value with None => Some name | Some _ => None end)
       [ ("AWS_ACCESS_KEY_ID", AWS_ACCESS_KEY_ID env);
         ("AWS_SECRET_ACCESS_KEY", AWS_SECRET_ACCESS_KEY env);
         ("AWS_REGION", AWS_REGION env);
         ("S3_BUCKET_NAME", S3_BUCKET_NAME env);
         ("MONGODB_URI", MONGODB_URI env) ].

(** [load_config] under its [validate_config] decorator: the wrapper calls
    the function first, so a setting that is no integer raises before the
    required variables are looked at.  Of the four dictionaries the two
    that the document pipeline reads are kept.  [dict.update] is the union
    that prefers the new entries. *)
Definition load_config (env : Environment) : result Config :=
  let+ max_file_size_mb := MAX_FILE_SIZE_MB_env env in
  let storage : gmap string cfg_value :=
    list_to_map
      [ ("aws_access_key_id", CStr (opt_str (AWS_ACCESS_KEY_ID env)));
        ("aws_secret_access_key", CStr (opt_str (AWS_SECRET_ACCESS_KEY env)));
        ("aws_region", CStr (opt_str (AWS_REGION env)));
        ("bucket_name", CStr (opt_str (S3_BUCKET_NAME env)));
        ("encryption_algorithm", CStr "AES256");
        ("max_file_size_mb", CInt max_file_size_mb);
        ("storage_class", CStr (S3_STORAGE_CLASS env));
        ("versioning_enabled", CBool true) ] in
  let+ connection_pool_size := MONGODB_POOL_SIZE env in
  let+ max_upload_retries := MAX_UPLOAD_RETRIES env in
  let+ presigned_url_expiry := PRESIGNED_URL_EXPIRY env in
  let+ upload_chunk_size := UPLOAD_CHUNK_SIZE env in
  let+ max_pages := MAX_DOCUMENT_PAGES env in
  let+ min_dpi := MIN_DOCUMENT_DPI env in
  let+ max_image_dimension := MAX_IMAGE_DIMENSION env in
  let service : gmap string cfg_value :=
    list_to_map
      [ ("allowed_mime_types", CList allowed_mime_types_config);
        ("max_upload_retries", CInt max_upload_retries);
        ("presigned_url_expiry", CInt presigned_url_expiry);
        ("upload_chunk_size", CInt upload_chunk_size);
        ("virus_scan_enabled", CBool (VIRUS_SCAN_ENABLED env));
        ("content_validation_rules",
         CDict [ ("max_pages", max_pages);
                 ("min_dpi", min_dpi);
                 ("max_image_dimension", max_image_dimension) ]) ] in
  let+ rotation_size_mb := LOG_ROTATION_SIZE_MB env in
  let+ retention_days := LOG_RETENTION_DAYS env in
  let config :=
    if String.eqb (ENVIRONMENT env) "production" then
      {| config_storage :=
           <["storage_class" := CStr "STANDARD_IA"]>
             (<["versioning_enabled" := CBool true]> storage);
         config_service :=
           <["virus_scan_enabled" := CBool true]>
             (<["presigned_url_expiry" := CInt 1800]> service) |}
    else if String.eqb (ENVIRONMENT env) "staging" then
      {| config_storage :=
           <["storage_class" := CStr "STANDARD"]>
             (<["versioning_enabled" := CBool true]> storage);
         config_service := service |}
    else
      {| config_storage :=
           <["storage_class" := CStr "STANDARD"]>
             (<["versioning_enabled" := CBool false]> storage);
         config_service := service |} in
  match missing_vars env with
  | [] => Ok config
  | missing =>
      Raise (ValueError ("Missing required environment variables: "
                         ++ String.concat ", " missing))
  end.

(** The environment of a development deployment with the defaults of
    [config.py] and the five required variables set. *)
Definition default_environment : Environment :=
  {| ENVIRONMENT := "development"; DEBUG := false;
     AWS_ACCESS_KEY_ID := Some "key-id";
     AWS_SECRET_ACCESS_KEY := Some "secret";
     AWS_REGION := Some "us-east-1";
     S3_BUCKET_NAME := Some "documents-bucket";
     MONGODB_URI := Some "mongodb://localhost";
     MAX_FILE_SIZE_MB_env := Ok 100;
     S3_STORAGE_CLASS := "STANDARD";
     MONGODB_POOL_SIZE := Ok 100;
     MAX_UPLOAD_RETRIES := Ok 3;
     PRESIGNED_URL_EXPIRY := Ok 3600;
     UPLOAD_CHUNK_SIZE := Ok 5242880;
     VIRUS_SCAN_ENABLED := true;
     MAX_DOCUMENT_PAGES := Ok 50;
     MIN_DOCUMENT_DPI := Ok 300;
     MAX_IMAGE_DIMENSION := Ok 4096;
     LOG_ROTATION_SIZE_MB := Ok 100;
     LOG_RETENTION_DAYS := Ok 30 |}.

(** ** Numbers as Python prints and divides them *)

(** The integer nearest to [num / den], ties to the even one
    ([0 <= num], [0 < den]). *)
Definition round_half_even (num den : Z) : Z :=
  let q := num / den in
  let r := num mod den in
  if (2 * r >? den) || ((2 * r =? den) && Z.odd q) then q + 1 else q.

(** The double nearest to the natural number [a]: [a] itself below [2^53],
    otherwise [a] rounded to 53 significant bits. *)
Definition to_double (a : Z) : Z :=
  if a <? 2 ^ 53 then a
  else let e := Z.log2 a - 52 in round_half_even a (2 ^ e) * 2 ^ e.

(** [file_size_bytes / (1024 * 1024)]: true division of integers gives the
    double nearest to the quotient.  The divisor is a power of two, so the
    quotient is the nearest double to the dividend, scaled; the result is
    kept as the integer [r] that stands for the float [r / 2^20].  A quotient
    past the largest double raises [OverflowError]. *)
Definition true_div_mb (n : Z) : result Z :=
  let r := to_double (Z.abs n) in
  if r >=? 2 ^ 1044
  then Raise (OverflowError "integer division result too large for a float")
  else Ok (Z.sgn n * r).

(** [f"{x:.2f}"] for the float [r / 2^20]. *)
Definition format_2f (r : Z) : string :=
  let q := round_half_even (Z.abs r * 100) (2 ^ 20) in
  let frac := q mod 100 in
  (if r <? 0 then "-" else "")
  ++ dec (q / 100) ++ "." ++ (if frac <? 10 then "0" else "") ++ dec frac.

(** The [metadata] dictionary of [validate_file]; its keys are fixed. *)
Record FileMetadata : Type := {
  original_filename : string;
  sanitized_filename : string;
  file_size_bytes : Z;
  md_mime_type : string;          (* metadata['mime_type'] *)
  file_hash : string;
  validation_time_ms : Z
}.

Definition blen (content : bytes) : Z := Z.of_nat (length content).

Section Validator.

(** The module global [service_config] imported from [config]. *)
Variable service_config : gmap string cfg_value.

(** [magic.Magic(mime=True).from_buffer]: the content-sniffed type. *)
Variable magic_from_buffer : bytes -> result string.
(** [hashlib.sha256(content).hexdigest()] *)
Variable sha256_hexdigest : bytes -> string.
(** [list(clamd.ClamdUnixSocket().instream(content).values())[0]]: the
    status and the signature name. *)
Variable clamd_instream : bytes -> result (string * string).

(** [[m.lower() for m in service_config['allowed_mime_types']]] *)
Definition allowed_mime_types_lower : result (list string) :=
  match service_config !! "allowed_mime_types" with
  | None => Raise (KeyError "allowed_mime_types")
  | Some (CList l) => Ok (map Str.lower l)
  | Some (CStr s) =>
      Ok (map (fun c => Str.lower (String c EmptyString)) (list_ascii_of_string s))
  | Some (CDict d) => Ok (map (fun kv => Str.lower (fst kv)) d)
  | Some (CInt _) => Raise (TypeError "'int' object is not iterable")
  | Some (CBool _) => Raise (TypeError "'bool' object is not iterable")
  end.

(** Whether the configured allow-list is made of ASCII strings. *)
Definition allowed_mime_types_ascii : bool :=
  match service_config !! "allowed_mime_types" with
  | Some (CList l) => forallb Str.is_ascii l
  | Some (CStr s) => Str.is_ascii s
  | Some (CDict d) => forallb (fun kv => Str.is_ascii (fst kv)) d
  | _ => true
  end.

(** [validate_mime_type].  Its body catches every exception, so the
    [@retry] around it never sees one and makes a single attempt. *)
Definition validate_mime_type (file_content : bytes) (claimed_mime_type : string)
  : bool * string :=
  match magic_from_buffer file_content with
  | Raise e => (false, "MIME type validation error: " ++ exn_str e)
  | Ok detected_mime_type =>
      if negb (String.eqb (Str.lower detected_mime_type)
                          (Str.lower claimed_mime_type))
      then (false, "MIME type mismatch: claimed " ++ claimed_mime_type
                   ++ ", detected " ++ detected_mime_type)
      else
        match allowed_mime_types_lower with
        | Raise e => (false, "MIME type validation error: " ++ exn_str e)
        | Ok allowed =>
            if negb (Str.mem (Str.lower detected_mime_type) allowed)
            then (false, "MIME type " ++ detected_mime_type ++ " not allowed")
            else (true, "")
        end
  end.

(** [validate_file_size]: the float [file_size_mb] is compared with the
    configured integer; Python compares a float with an integer exactly. *)
Definition validate_file_size (file_size_bytes : Z) : result (bool * string) :=
  match true_div_mb file_size_bytes with
  | Raise e => Raise e
  | Ok file_size_mb =>
      match service_config !! "max_file_size_mb" with
      | None => Raise (KeyError "max_file_size_mb")
      | Some v =>
          let exceeds (max_size_mb : Z) (shown : string) :=
            if file_size_mb >? max_size_mb * 2 ^ 20
            then Ok (false, "File size " ++ format_2f file_size_mb
                            ++ "MB exceeds maximum allowed size of "
                            ++ shown ++ "MB")
            else Ok (true, "") in
          match v with
          | CInt max_size_mb => exceeds max_size_mb (dec max_size_mb)
          | CBool b => exceeds (Z.b2z b) (if b then "True" else "False")
          | CStr _ =>
              Raise (TypeError "'>' not supported between instances of 'float' and 'str'")
          | CList _ =>
              Raise (TypeError "'>' not supported between instances of 'float' and 'list'")
          | CDict _ =>
              Raise (TypeError "'>' not supported between instances of 'float' and 'dict'")
          end
      end
  end.

(** [generate_file_hash] *)
Definition generate_file_hash (file_content : bytes) : string :=
  sha256_hexdigest file_content.

(** [scan_for_viruses] *)
Definition scan_for_viruses (file_content : bytes) : bool * string :=
  match clamd_instream file_content with
  | Raise e => (false, "Virus scan error: " ++ exn_str e)
  | Ok (status, signature) =>
      if String.eqb status "OK" then (true, "")
      else (false, "Virus detected: " ++ signature)
  end.

(** [validate_file].  The clock of the model moves only while a retry
    sleeps, so the elapsed [validation_time_ms] is 0 wherever it is set. *)
Definition validate_file (file_content : bytes) (mime_type file_name : string)
  : bool * string * FileMetadata :=
  let metadata :=
    {| original_filename := file_name; sanitized_filename := "";
       file_size_bytes := blen file_content; md_mime_type := mime_type;
       file_hash := ""; validation_time_ms := 0 |} in
  match file_content with
  | [] => (false, "Empty file content", metadata)
  | _ =>
      let metadata :=
        {| original_filename := file_name;
           sanitized_filename := sanitize_filename file_name;
           file_size_bytes := blen file_content; md_mime_type := mime_type;
           file_hash := ""; validation_time_ms := 0 |} in
      let '(mime_valid, mime_error) := validate_mime_type file_content mime_type in
      if negb mime_valid then (false, mime_error, metadata)
      else
        match validate_file_size (blen file_content) with
        | Raise e => (false, "File validation error: " ++ exn_str e, metadata)
        | Ok (size_valid, size_error) =>
            if negb size_valid then (false, size_error, metadata)
            else
              let metadata :=
                {| original_filename := file_name;
                   sanitized_filename := sanitize_filename file_name;
                   file_size_bytes := blen file_content;
                   md_mime_type := mime_type;
                   file_hash := generate_file_hash file_content;
                   validation_time_ms := 0 |} in
              let scanned :=
                if default true (truthy <$> service_config !! "virus_scan_enabled")
                then scan_for_viruses file_content
                else (true, "") in
              if negb (fst scanned) then (false, snd scanned, metadata)
              else
                match service_config !! "content_validation_rules" with
                | None =>
                    (false,
                     "File validation error: "
                     ++ exn_str (KeyError "content_validation_rules"),
                     metadata)
                | Some rules => (true, "", metadata)
                end
        end
  end.

End Validator.

(** ** The document model ([models/document.py]) *)

Definition ALLOWED_MIME_TYPES : list string :=
  [ "application/pdf"; "image/jpeg"; "image/png"; "application/msword";
    "application/vnd.openxmlformats-officedocument.wordprocessingml.document" ].

Definition MAX_FILE_SIZE_MB : Z := 50.

Inductive DocumentStatus : Type := PENDING | UPLOADED | FAILED | DELETED.

Inductive VerificationStatus : Type := UNVERIFIED | VERIFIED | REJECTED.

(** [status.value] *)
Definition DocumentStatus_value (s : DocumentStatus) : string :=
  match s with
  | PENDING => "pending" | UPLOADED => "uploaded"
  | FAILED => "failed" | DELETED => "deleted"
  end.

Definition VerificationStatus_value (s : VerificationStatus) : string :=
  match s with
  | UNVERIFIED => "unverified" | VERIFIED => "verified" | REJECTED => "rejected"
  end.

(** A [uuid.UUID], by its 128-bit integer. *)
Record UUID : Type := mkUUID { uuid_int : Z }.

Definition UUID_eqb (a b : UUID) : bool := uuid_int a =? uuid_int b.

Definition hex_digit (d : Z) : ascii :=
  if d <? 10 then ascii_of_N (Z.to_N (48 + d)) else ascii_of_N (Z.to_N (87 + d)).

(** The [count] lowest hexadecimal digits of [n], most significant first. *)
Fixpoint hex (count : nat) (n : Z) : string :=
  match count with
  | O => EmptyString
  | S k => hex k (n / 16) ++ String (hex_digit (n mod 16)) EmptyString
  end.

(** [str(u)]: the 32 digits of ['%032x' % int] in groups of 8-4-4-4-12. *)
Definition UUID_str (u : UUID) : string :=
  let n := uuid_int u in
  hex 8 (n / 2 ^ 96) ++ "-" ++ hex 4 (n / 2 ^ 80) ++ "-" ++ hex 4 (n / 2 ^ 64)
  ++ "-" ++ hex 4 (n / 2 ^ 48) ++ "-" ++ hex 12 n.

(** [uuid.UUID(bytes=os.urandom(16), version=4)]: the variant and version
    bits of the random integer are overwritten. *)
Definition UUID_version4 (random : Z) : UUID :=
  let i := random mod 2 ^ 128 in
  let i := Z.land i (Z.lnot (Z.shiftl 49152 48)) in
  let i := Z.lor i (Z.shiftl 32768 48) in
  let i := Z.land i (Z.lnot (Z.shiftl 61440 64)) in
  mkUUID (Z.lor i (Z.shiftl 4 76)).

Inductive tzinfo : Type :=
| timezone (utcoffset_seconds : Z)
| other_tzinfo (name : string).

Definition timezone_utc : tzinfo := timezone 0.

Definition tzinfo_eqb (a b : tzinfo) : bool :=
  match a, b with
  | timezone x, timezone y => x =? y
  | other_tzinfo x, other_tzinfo y => String.eqb x y
  | _, _ => false
  end.

(** A [datetime]: seconds since the epoch and the attached [tzinfo]
    ([None] for a naive value). *)
Record datetime : Type := {
  timestamp : Z;
  dt_tzinfo : option tzinfo
}.

Record Document : Type := {
  id : UUID;
  application_id : option UUID;
  file_name : option string;
  mime_type : option string;
  storage_path : string;
  file_size : option Z;
  uploaded_at : datetime;
  status : DocumentStatus;
  verification_status : VerificationStatus
}.

(** The keyword arguments of [Document(...)]; an absent key is [None]. *)
Record DocumentKwargs : Type := {
  kw_id : option UUID;
  kw_application_id : option UUID;
  kw_file_name : option string;
  kw_mime_type : option string;
  kw_storage_path : option string;
  kw_file_size : option Z;
  kw_uploaded_at : option datetime;
  kw_status : option DocumentStatus;
  kw_verification_status : option VerificationStatus
}.

(** [Document.__init__], given the values [uuid.uuid4()] and
    [datetime.now(timezone.utc)] evaluate to (both are evaluated whether or
    not the keyword is present). *)
Definition Document_init (kwargs : DocumentKwargs) (fresh : UUID) (now : datetime)
  : Document :=
  let id_ := default fresh (kw_id kwargs) in
  let safe_filename := Str.sub_unsafe (default "" (kw_file_name kwargs)) in
  {| id := id_;
     application_id := kw_application_id kwargs;
     file_name := kw_file_name kwargs;
     mime_type := kw_mime_type kwargs;
     storage_path :=
       match kw_storage_path kwargs with
       | Some p => p
       | None => "documents/" ++ UUID_str id_ ++ "/" ++ safe_filename
       end;
     file_size := kw_file_size kwargs;
     uploaded_at := default now (kw_uploaded_at kwargs);
     status := default PENDING (kw_status kwargs);
     verification_status := default UNVERIFIED (kw_verification_status kwargs) |}.

(** The checks inside the [try] of [Document.validate], in order. *)
Definition Document_validate_checks (document : Document) : result bool :=
  if match file_name document with
     | None => true
     | Some n => Str.is_empty n || Str.contains ".." n || Str.contains "/" n
     end
  then Raise (ValidationError "Invalid file name")
  else if negb match mime_type document with
               | None => false
               | Some m => Str.mem m ALLOWED_MIME_TYPES
               end
  then Raise (ValidationError ("Unsupported MIME type: "
                               ++ default "None" (mime_type document)))
  else
    match file_size document with
    | None => Raise (TypeError "'<=' not supported between instances of 'int' and 'NoneType'")
    | Some size =>
        if negb ((0 <=? size) && (size <=? MAX_FILE_SIZE_MB * 1024 * 1024))
        then Raise (ValidationError ("File size exceeds " ++ dec MAX_FILE_SIZE_MB
                                     ++ "MB limit"))
        else if negb (Str.startswith "documents/" (storage_path document))
                || Str.contains ".." (storage_path document)
        then Raise (ValidationError "Invalid storage path")
        else
          match application_id document with
          | None => Raise (ValidationError "Invalid UUID format")
          | Some _ =>
              if negb match dt_tzinfo (uploaded_at document) with
                      | None => false
                      | Some tz => tzinfo_eqb tz timezone_utc
                      end
              then Raise (ValidationError "Invalid upload timestamp")
              else Ok true
          end
    end.

(** [Document.validate]: whatever the checks raise is raised again as a
    [ValidationError]. *)
Definition Document_validate (document : Document) : result bool :=
  match Document_validate_checks document with
  | Ok b => Ok b
  | Raise e => Raise (ValidationError ("Document validation failed: " ++ exn_str e))
  end.

(** What a record that passes the checks of [Document.validate] satisfies. *)
Definition validated (d : Document) : Prop :=
  exists n m s a,
    file_name d = Some n /\ n <> ""
    /\ Str.contains ".." n = false /\ Str.contains "/" n = false
    /\ mime_type d = Some m /\ In m ALLOWED_MIME_TYPES
    /\ file_size d = Some s /\ 0 <= s <= 50 * 1024 * 1024
    /\ Str.startswith "documents/" (storage_path d) = true
    /\ Str.contains ".." (storage_path d) = false
    /\ application_id d = Some a
    /\ dt_tzinfo (uploaded_at d) = Some timezone_utc.

(** ** The world: object store, metadata collection, clock and log *)

Record S3Object : Type := {
  Body : bytes;
  ContentType : string;
  ServerSideEncryption : string;
  Metadata : gmap string string
}.

(** [faults] scripts the backends: each call to the object store or to the
    collection takes the next entry, [Some text] making that call fail with
    [text] and [None] (or an exhausted script) letting it through.
    [urandom] with its position is the random source of [uuid.uuid4]. *)
Record World : Type := {
  bucket : gmap string S3Object;
  documents : list Document;
  urandom : nat -> Z;
  urandom_pos : nat;
  clock : Z;
  sleeps : list Z;
  faults : list (option string);
  log : list (string * string)
}.

Definition set_bucket (b : gmap string S3Object) (w : World) : World :=
  {| bucket := b; documents := documents w; urandom := urandom w;
     urandom_pos := urandom_pos w; clock := clock w; sleeps := sleeps w;
     faults := faults w; log := log w |}.

Definition set_documents (d : list Document) (w : World) : World :=
  {| bucket := bucket w; documents := d; urandom := urandom w;
     urandom_pos := urandom_pos w; clock := clock w; sleeps := sleeps w;
     faults := faults w; log := log w |}.

Definition set_urandom_pos (n : nat) (w : World) : World :=
  {| bucket := bucket w; documents := documents w; urandom := urandom w;
     urandom_pos := n; clock := clock w; sleeps := sleeps w;
     faults := faults w; log := log w |}.

Definition set_faults (f : list (option string)) (w : World) : World :=
  {| bucket := bucket w; documents := documents w; urandom := urandom w;
     urandom_pos := urandom_pos w; clock := clock w; sleeps := sleeps w;
     faults := f; log := log w |}.

Definition add_log (level msg : string) (w : World) : World :=
  {| bucket := bucket w; documents := documents w; urandom := urandom w;
     urandom_pos := urandom_pos w; clock := clock w; sleeps := sleeps w;
     faults := faults w; log := (log w ++ [(level, msg)])%list |}.

(** [time.sleep(seconds)] *)
Definition sleep_world (seconds : Z) (w : World) : World :=
  {| bucket := bucket w; documents := documents w; urandom := urandom w;
     urandom_pos := urandom_pos w; clock := clock w + seconds;
     sleeps := (sleeps w ++ [seconds])%list;
     faults := faults w; log := log w |}.

(** Code with effects: a result and the world it leaves. *)
Definition M (A : Type) : Type := World -> result A * World.

Definition ret {A} (a : A) : M A := fun w => (Ok a, w).

Definition raise {A} (e : exn) : M A := fun w => (Raise e, w).

Definition bind {A B} (m : M A) (k : A -> M B) : M B :=
  fun w =>
    match m w with
    | (Ok a, w') => k a w'
    | (Raise e, w') => (Raise e, w')
    end.

Notation "'let*' x ':=' m 'in' k" := (bind m (fun x => k))
  (at level 10, x name, m at level 100, k at level 200).
Notation "m ';;' k" := (bind m (fun _ => k))
  (at level 100, k at level 200, right associativity).

(** A [result] computed without effects. *)
Definition lift {A} (r : result A) : M A := fun w => (r, w).

(** [try: body  except Exception as e: logger.error(f"{prefix}{str(e)}"); raise] *)
Definition logging_errors {A} (prefix : string) (body : M A) : M A :=
  fun w =>
    match body w with
    | (Ok a, w') => (Ok a, w')
    | (Raise e, w') => (Raise e, add_log "ERROR" (prefix ++ exn_str e) w')
    end.

Definition logger_info (msg : string) : M unit :=
  fun w => (Ok tt, add_log "INFO" msg w).

(** One call to a backend: the next entry of the fault script decides
    whether it fails, with the exception [mk] builds. *)
Definition backend_call (mk : string -> exn) : M unit :=
  fun w =>
    match faults w with
    | Some text :: rest => (Raise (mk text), set_faults rest w)
    | None :: rest => (Ok tt, set_faults rest w)
    | [] => (Ok tt, w)
    end.

(** Whether the fault script makes the next backend call fail. *)
Definition next_call_fails (w : World) : bool :=
  match faults w with
  | Some _ :: _ => true
  | _ => false
  end.

(** [uuid.uuid4()] *)
Definition uuid4 : M UUID :=
  fun w => (Ok (UUID_version4 (urandom w (urandom_pos w))),
            set_urandom_pos (S (urandom_pos w)) w).

(** [datetime.now(timezone.utc)] *)
Definition datetime_now_utc : M datetime :=
  fun w => (Ok {| timestamp := clock w; dt_tzinfo := Some timezone_utc |}, w).

(** *** The object store *)

Definition s3_put_object (Key : string) (obj : S3Object) : M unit :=
  backend_call ClientError ;;
  fun w => (Ok tt, set_bucket (<[Key := obj]> (bucket w)) w).

Definition s3_get_object (Key : string) : M S3Object :=
  backend_call ClientError ;;
  fun w =>
    match bucket w !! Key with
    | Some obj => (Ok obj, w)
    | None => (Raise (ClientError "NoSuchKey"), w)
    end.

Definition s3_delete_object (Key : string) : M unit :=
  backend_call ClientError ;;
  fun w => (Ok tt, set_bucket (delete Key (bucket w)) w).

(** *** The documents collection *)

(** [document.save()].  mongoengine's [save] validates before it writes, by
    the call [self.validate(clean=clean)].  On this class the name
    [validate] is the class method [Document.validate(cls, document)], which
    takes no keyword [clean]: the call raises [TypeError], and nothing is
    written. *)
Definition save_error : exn :=
  TypeError "Document.validate() got an unexpected keyword argument 'clean'".

Definition Document_save (d : Document) : M unit := raise save_error.

(** [.first()] of a query under the collection's ordering [-uploaded_at]:
    the latest of the matching records. *)
Definition latest (p : Document -> bool) (docs : list Document) : option Document :=
  fold_left
    (fun best d =>
       if p d then
         match best with
         | None => Some d
         | Some b =>
             if timestamp (uploaded_at b) <? timestamp (uploaded_at d)
             then Some d else Some b
         end
       else best)
    docs None.

(** [Document.objects(storage_path=p).first()] *)
Definition Document_objects_storage_path_first (p : string) : M (option Document) :=
  backend_call OperationError ;;
  fun w => (Ok (latest (fun d => String.eqb (storage_path d) p) (documents w)), w).

(** [Document.objects(id=i).first()] *)
Definition Document_objects_id_first (i : UUID) : M (option Document) :=
  backend_call OperationError ;;
  fun w => (Ok (latest (fun d => UUID_eqb (id d) i) (documents w)), w).

Definition set_status (s : DocumentStatus) (d : Document) : Document :=
  {| id := id d; application_id := application_id d; file_name := file_name d;
     mime_type := mime_type d; storage_path := storage_path d;
     file_size := file_size d; uploaded_at := uploaded_at d;
     status := s; verification_status := verification_status d |}.

Definition set_verification_status (v : VerificationStatus) (d : Document) : Document :=
  {| id := id d; application_id := application_id d; file_name := file_name d;
     mime_type := mime_type d; storage_path := storage_path d;
     file_size := file_size d; uploaded_at := uploaded_at d;
     status := status d; verification_status := v |}.




(** ** Retrying ([tenacity]) *)

(** [wait_exponential(multiplier, min, max)] before the attempt that follows
    attempt [attempt_number]. *)
Definition wait_exponential (multiplier min max : Z) (attempt_number : Z) : Z :=
  Z.max (Z.max 0 min) (Z.min (multiplier * 2 ^ (attempt_number - 1)) max).

(** The attempts from [attempt_number] on, [more] of them left after this
    one: a result is returned, an exception makes the decorator sleep and
    try again, and the exception of the last attempt is raised inside
    [RetryError]. *)
Fixpoint attempts {A} (wait : Z -> Z) (more : nat) (attempt_number : Z) (f : M A)
  : M A :=
  fun w =>
    match f w with
    | (Ok a, w') => (Ok a, w')
    | (Raise e, w') =>
        match more with
        | O => (Raise (RetryError e), w')
        | S k => attempts wait k (attempt_number + 1) f
                   (sleep_world (wait attempt_number) w')
        end
    end.

(** [@retry(stop=stop_after_attempt(n), wait=wait)] *)
Definition retry {A} (stop_after_attempt : nat) (wait : Z -> Z) (f : M A) : M A :=
  attempts wait (Nat.pred stop_after_attempt) 1 f.

(** ** The storage service ([services/storage_service.py]) *)

(** The fields [StorageService.__init__] sets from [storage_config]. *)
Record StorageService : Type := {
  _bucket_name : string;
  _encryption_algorithm : string
}.

Definition valid_storage_path (storage_path : string) : bool :=
  Str.startswith "documents/" storage_path && negb (Str.contains ".." storage_path).

Section Service.

Variable service_config : gmap string cfg_value.
Variable magic_from_buffer : bytes -> result string.
Variable sha256_hexdigest : bytes -> string.
Variable clamd_instream : bytes -> result (string * string).
(** The URL the S3 client signs for a bucket, a key and an expiry. *)
Variable s3_presign : string -> string -> Z -> string.
Variable self : StorageService.

(** The constructor call [Document] with keyword arguments. *)
Definition Document_new (kwargs : DocumentKwargs) : M Document :=
  let* fresh := uuid4 in
  let* now := datetime_now_utc in
  ret (Document_init kwargs fresh now).

(** The body of [upload_file]: one attempt. *)
Definition upload_file_body (file_content : bytes) (file_name mime_type : string)
    (application_id : UUID) : M Document :=
  logging_errors "Upload failed: "
    (let '(is_valid, error_msg, metadata) :=
       validate_file service_config magic_from_buffer sha256_hexdigest
                     clamd_instream file_content mime_type file_name in
     if negb is_valid
     then raise (ValueError ("File validation failed: " ++ error_msg))
     else
       let* document_id := uuid4 in
       let storage_path :=
         "documents/" ++ UUID_str application_id ++ "/" ++ UUID_str document_id
         ++ "/" ++ sanitized_filename metadata in
       s3_put_object storage_path
         {| Body := file_content; ContentType := mime_type;
            ServerSideEncryption := _encryption_algorithm self;
            Metadata :=
              <["file_hash" := file_hash metadata]>
                (<["application_id" := UUID_str application_id]> ∅) |} ;;
       let* document :=
         Document_new
           {| kw_id := Some document_id;
              kw_application_id := Some application_id;
              kw_file_name := Some (sanitized_filename metadata);
              kw_mime_type := Some mime_type;
              kw_storage_path := Some storage_path;
              kw_file_size := Some (blen file_content);
              kw_uploaded_at := None;
              kw_status := Some UPLOADED;
              kw_verification_status := Some UNVERIFIED |} in
       let* _ := lift (Document_validate document) in
       Document_save document ;;
       logger_info ("Document uploaded successfully: " ++ storage_path) ;;
       ret document).

(** [upload_file] under its decorator
    [@retry(stop=stop_after_attempt(3), wait=wait_exponential(multiplier=1, min=4, max=10))]. *)
Definition upload_file (file_content : bytes) (file_name mime_type : string)
    (application_id : UUID) : M Document :=
  retry 3 (wait_exponential 1 4 10)
        (upload_file_body file_content file_name mime_type application_id).

Definition download_file_body (storage_path : string) : M (bytes * string) :=
  logging_errors "Download failed: "
    (if negb (Str.startswith "documents/" storage_path)
        || Str.contains ".." storage_path
     then raise (ValueError "Invalid storage path")
     else
       let* response := s3_get_object storage_path in
       let content := Body response in
       let mime_type := ContentType response in
       match Metadata response !! "file_hash" with
       | Some stored_hash =>
           if negb (Str.is_empty stored_hash)
              && negb (String.eqb stored_hash
                                  (generate_file_hash sha256_hexdigest content))
           then raise (ValueError "File integrity check failed")
           else ret tt
       | None => ret tt
       end ;;
       logger_info ("Document downloaded successfully: " ++ storage_path) ;;
       ret (content, mime_type)).

Definition download_file (storage_path : string) : M (bytes * string) :=
  retry 3 (wait_exponential 1 4 10) (download_file_body storage_path).

Definition delete_file_body (storage_path : string) : M bool :=
  logging_errors "Deletion failed: "
    (if negb (Str.startswith "documents/" storage_path)
        || Str.contains ".." storage_path
     then raise (ValueError "Invalid storage path")
     else
       s3_delete_object storage_path ;;
       let* document := Document_objects_storage_path_first storage_path in
       match document with
       | Some document => Document_save (set_status DELETED document)
       | None => ret tt
       end ;;
       logger_info ("Document deleted successfully: " ++ storage_path) ;;
       ret true).

Definition delete_file (storage_path : string) : M bool :=
  retry 3 (wait_exponential 1 4 10) (delete_file_body storage_path).

(** [generate_presigned_url]; it has no [@retry]. *)
Definition generate_presigned_url (storage_path : string) (expiry_seconds : Z)
  : M string :=
  logging_errors "URL generation failed: "
    (if negb (Str.startswith "documents/" storage_path)
        || Str.contains ".." storage_path
     then raise (ValueError "Invalid storage path")
     else if negb ((300 <=? expiry_seconds) && (expiry_seconds <=? 7200))
     then raise (ValueError "Invalid expiry duration")
     else
       backend_call ClientError ;;
       let url := s3_presign (_bucket_name self) storage_path expiry_seconds in
       logger_info ("Pre-signed URL generated for: " ++ storage_path) ;;
       ret url).

(** ** The controller ([controllers/document_controller.py]) *)

Record DocumentResponse : Type := {
  r_id : UUID;
  r_application_id : UUID;
  r_file_name : string;
  r_mime_type : string;
  r_status : string;
  r_verification_status : string;
  r_uploaded_at : datetime;
  r_encryption_status : string;
  r_last_accessed : option Z;       (* the clock reading [utcnow()] prints *)
  r_access_count : Z
}.

(** [DocumentResponse(...)] from a record; the model needs its required
    fields. *)
Definition response_of (document : Document) (last_accessed : option Z)
    (access_count : Z) : result DocumentResponse :=
  match application_id document, file_name document, mime_type document with
  | Some a, Some n, Some m =>
      Ok {| r_id := id document; r_application_id := a; r_file_name := n;
            r_mime_type := m;
            r_status := DocumentStatus_value (status document);
            r_verification_status :=
              VerificationStatus_value (verification_status document);
            r_uploaded_at := uploaded_at document;
            r_encryption_status := "AES-256-GCM";
            r_last_accessed := last_accessed;
            r_access_count := access_count |}
  | _, _, _ => Raise (ValidationError "validation error for DocumentResponse")
  end.

(** [try: body  except Exception as e: logger.error(...); raise
    HTTPException(500, detail=str(e))] (the metric counters are left out). *)
Definition http_errors {A} (prefix : string) (body : M A) : M A :=
  fun w =>
    match body w with
    | (Ok a, w') => (Ok a, w')
    | (Raise e, w') =>
        (Raise (HTTPException 500 (exn_str e)),
         add_log "ERROR" (prefix ++ exn_str e) w')
    end.

Definition verify_document (document_id : UUID) : M DocumentResponse :=
  http_errors "Document verification failed: "
    (let* document := Document_objects_id_first document_id in
     match document with
     | None => raise (HTTPException 404 "Document not found")
     | Some document =>
         let document := set_verification_status VERIFIED document in
         Document_save document ;;
         fun w => (response_of document (Some (clock w)) 1, w)
     end).

Definition delete_document (document_id : UUID) : M string :=
  http_errors "Document deletion failed: "
    (let* document := Document_objects_id_first document_id in
     match document with
     | None => raise (HTTPException 404 "Document not found")
     | Some document =>
         let* _ := delete_file (storage_path document) in
         ret "Document deleted successfully"
     end).

(** The fields of the upload request; the handler reads neither
    [file_size] nor [checksum]. *)
Record DocumentUploadRequest : Type := {
  req_application_id : UUID;
  req_file_name : string;
  req_mime_type : string;
  req_file_size : Z;
  req_checksum : string
}.

Definition upload_document (file_content : bytes) (request : DocumentUploadRequest)
  : M DocumentResponse :=
  http_errors "Document upload failed: "
    (let '(is_valid, error_msg, metadata) :=
       validate_file service_config magic_from_buffer sha256_hexdigest
                     clamd_instream file_content (req_mime_type request)
                     (req_file_name request) in
     if negb is_valid
     then raise (HTTPException 400 ("File validation failed: " ++ error_msg))
     else
       let* document :=
         upload_file file_content (sanitized_filename metadata)
                     (req_mime_type request) (req_application_id request) in
       let* response := lift (response_of document None 0) in
       logger_info ("Document uploaded successfully: " ++ UUID_str (id document)) ;;
       ret response).

Definition get_document (document_id : UUID) : M DocumentResponse :=
  http_errors "Document retrieval failed: "
    (let* document := Document_objects_id_first document_id in
     match document with
     | None => raise (HTTPException 404 "Document not found")
     | Some document => fun w => (response_of document (Some (clock w)) 1, w)
     end).

(** [service_config['service_config']['presigned_url_expiry']] *)
Definition presigned_url_expiry_setting : result Z :=
  match service_config !! "service_config" with
  | None => Raise (KeyError "service_config")
  | Some (CDict d) =>
      match List.find (fun kv => String.eqb (fst kv) "presigned_url_expiry") d with
      | Some kv => Ok (snd kv)
      | None => Raise (KeyError "presigned_url_expiry")
      end
  | Some (CStr _) => Raise (TypeError "string indices must be integers")
  | Some (CList _) => Raise (TypeError "list indices must be integers or slices")
  | Some (CInt _) => Raise (TypeError "'int' object is not subscriptable")
  | Some (CBool _) => Raise (TypeError "'bool' object is not subscriptable")
  end.

(** The dictionary [download_document] returns. *)
Record DownloadResponse : Type := {
  download_url : string;
  expires_in : Z;
  dl_file_name : option string;
  dl_mime_type : option string
}.

Definition download_document (document_id : UUID) : M DownloadResponse :=
  http_errors "Download URL generation failed: "
    (let* document := Document_objects_id_first document_id in
     match document with
     | None => raise (HTTPException 404 "Document not found")
     | Some document =>
         let* expiry := lift presigned_url_expiry_setting in
         let* url := generate_presigned_url (storage_path document) expiry in
         let* expires := lift presigned_url_expiry_setting in
         ret {| download_url := url; expires_in := expires;
                dl_file_name := file_name document;
                dl_mime_type := mime_type document |}
     end).



End Service.

(** * Properties *)

(** ** Fixtures: a deployment and collaborators that behave *)

(** [service_config] as [config.py] loads it under the default environment. *)
Definition loaded_service_config : gmap string cfg_value :=
  match load_config default_environment with
  | Ok c => config_service c
  | Raise _ => ∅
  end.

(** The configuration [config.py] loads under the default environment. *)
Definition loaded_config : Config :=
  match load_config default_environment with
  | Ok c => c
  | Raise _ => {| config_storage := ∅; config_service := ∅ |}
  end.

(** An environment with [MAX_FILE_SIZE_MB=abc] and no AWS region. *)
Definition broken_environment : Environment :=
  {| ENVIRONMENT := "development"; DEBUG := false;
     AWS_ACCESS_KEY_ID := Some "key-id";
     AWS_SECRET_ACCESS_KEY := Some "secret";
     AWS_REGION := None;
     S3_BUCKET_NAME := Some "documents-bucket";
     MONGODB_URI := Some "mongodb://localhost";
     MAX_FILE_SIZE_MB_env :=
       Raise (ValueError "invalid literal for int() with base 10: 'abc'");
     S3_STORAGE_CLASS := "STANDARD";
     MONGODB_POOL_SIZE := Ok 100;
     MAX_UPLOAD_RETRIES := Ok 3;
     PRESIGNED_URL_EXPIRY := Ok 3600;
     UPLOAD_CHUNK_SIZE := Ok 5242880;
     VIRUS_SCAN_ENABLED := true;
     MAX_DOCUMENT_PAGES := Ok 50;
     MIN_DOCUMENT_DPI := Ok 300;
     MAX_IMAGE_DIMENSION := Ok 4096;
     LOG_ROTATION_SIZE_MB := Ok 100;
     LOG_RETENTION_DAYS := Ok 30 |}.

(** The same dictionary with the size limit [validate_file_size] looks up,
    as a test that patches [service_config] would set it. *)
Definition patched_service_config : gmap string cfg_value :=
  <["max_file_size_mb" := CInt 100]> loaded_service_config.

Definition pdf_content : bytes := [Byte.x25; Byte.x50; Byte.x44; Byte.x46].
Definition exe_content : bytes := [Byte.x4d; Byte.x5a; Byte.x90; Byte.x00].

(** A sniffer that knows the two magic numbers above. *)
Definition sniff (content : bytes) : result string :=
  match content with
  | Byte.x25 :: Byte.x50 :: _ => Ok "application/pdf"
  | Byte.x4d :: Byte.x5a :: _ => Ok "application/x-msdownload"
  | _ => Ok "application/octet-stream"
  end.

Definition digest (content : bytes) : string :=
  "sha256:" ++ dec (blen content).

Definition scan_clean (content : bytes) : result (string * string) := Ok ("OK", "").

(** A scanner that finds a signature, and one that cannot be reached. *)
Definition scan_infected (content : bytes) : result (string * string) :=
  Ok ("FOUND", "Eicar-Test-Signature").

Definition scan_unreachable (content : bytes) : result (string * string) :=
  Raise (ClamdError "Error 2 connecting /var/run/clamav/clamd.ctl").

Definition presign (bucket_name key : string) (expiry : Z) : string :=
  "https://" ++ bucket_name ++ ".s3.amazonaws.com/" ++ key ++ "?X-Amz-Expires="
  ++ dec expiry.

Definition service : StorageService :=
  {| _bucket_name := "documents-bucket"; _encryption_algorithm := "AES256" |}.

Definition empty_world : World :=
  {| bucket := ∅; documents := []; urandom := fun n => Z.of_nat n;
     urandom_pos := 0; clock := 1700000000; sleeps := []; faults := [];
     log := [] |}.

Definition app_id : UUID := UUID_version4 77.


Definition utc_now : datetime :=
  {| timestamp := 1700000000; dt_tzinfo := Some timezone_utc |}.


(** The same keyword arguments without the storage path. *)
Definition test_doc_kwargs_no_path : DocumentKwargs :=
  {| kw_id := Some (UUID_version4 1);
     kw_application_id := Some app_id;
     kw_file_name := Some "test_document.pdf";
     kw_mime_type := Some "application/pdf";
     kw_storage_path := None;
     kw_file_size := Some 17;
     kw_uploaded_at := None;
     kw_status := Some PENDING;
     kw_verification_status := Some UNVERIFIED |}.

Definition world_with (docs : list Document) : World :=
  set_documents docs empty_world.

(** A record of an uploaded PDF, as the collection would hold it. *)
Definition uploaded_document : Document :=
  {| id := UUID_version4 0;
     application_id := Some app_id;
     file_name := Some "test_document.pdf";
     mime_type := Some "application/pdf";
     storage_path :=
       "documents/00000000-0000-4000-8000-00000000004d/00000000-0000-4000-8000-000000000000/test_document.pdf";
     file_size := Some 4;
     uploaded_at := utc_now;
     status := UPLOADED;
     verification_status := UNVERIFIED |}.

(** A stored object, with and without custom metadata. *)
Definition stored_object (metadata : gmap string string) : S3Object :=
  {| Body := pdf_content; ContentType := "application/pdf";
     ServerSideEncryption := "AES256"; Metadata := metadata |}.

Definition world_with_object (metadata : gmap string string) : World :=
  set_bucket (<["documents/a/b/c.pdf" := stored_object metadata]> ∅) empty_world.

(** The metadata of the failed validation of [exe_content] claimed as a PDF. *)
Definition exe_metadata : FileMetadata :=
  {| original_filename := "setup.pdf"; sanitized_filename := "setup.pdf";
     file_size_bytes := 4; md_mime_type := "application/pdf";
     file_hash := ""; validation_time_ms := 0 |}.

(** The object [upload_file] writes for [pdf_content]. *)
Definition uploaded_object : S3Object :=
  {| Body := pdf_content; ContentType := "application/pdf";
     ServerSideEncryption := "AES256";
     Metadata :=
       <["file_hash" := digest pdf_content]>
         (<["application_id" := UUID_str app_id]> ∅) |}.

(** A world that holds the record [uploaded_document] and the object under
    its storage path. *)
Definition uploaded_world : World :=
  set_documents [uploaded_document]
    (set_bucket (<[storage_path uploaded_document := uploaded_object]> ∅)
                empty_world).

(** An object store that is unavailable for three calls. *)
Definition unavailable : World :=
  set_faults [Some "ServiceUnavailable"; Some "ServiceUnavailable";
              Some "ServiceUnavailable"] empty_world.

(** The requests of the test-suite: a PDF, and an executable claimed as a
    PDF. *)
Definition test_request : DocumentUploadRequest :=
  {| req_application_id := app_id;
     req_file_name := "uploads/test_document.pdf";
     req_mime_type := "application/pdf";
     req_file_size := 4;
     req_checksum := "sha256:4" |}.

Definition exe_request : DocumentUploadRequest :=
  {| req_application_id := app_id;
     req_file_name := "setup.pdf";
     req_mime_type := "application/pdf";
     req_file_size := 4;
     req_checksum := "sha256:4" |}.

(** The answers of the handlers for the uploaded PDF. *)
Definition response_for (verification : string) (last_accessed : option Z)
    (access_count : Z) : DocumentResponse :=
  {| r_id := UUID_version4 0;
     r_application_id := app_id;
     r_file_name := "test_document.pdf";
     r_mime_type := "application/pdf";
     r_status := "uploaded";
     r_verification_status := verification;
     r_uploaded_at := utc_now;
     r_encryption_status := "AES-256-GCM";
     r_last_accessed := last_accessed;
     r_access_count := access_count |}.

(** ** The embedding on small inputs *)

Example sanitize_plain : sanitize_filename "test_document.pdf" = "test_document.pdf".
Proof. reflexivity. Qed.

Example sanitize_path : sanitize_filename "../../etc/pass;wd" = "passwd".
Proof. reflexivity. Qed.

Example sanitize_dots : sanitize_filename "a....b...c" = "ab.c".
Proof. reflexivity. Qed.

(** One character outside ASCII (three bytes of UTF-8) becomes one ['_']. *)
Example sub_unsafe_cjk :
  Str.sub_unsafe (String "228" (String "184" (String "173" ".pdf"))) = "_.pdf".
Proof. reflexivity. Qed.

Example sub_unsafe_space : Str.sub_unsafe "my file (1).pdf" = "my_file__1_.pdf".
Proof. reflexivity. Qed.

Example format_2f_101 : format_2f (101 * 2 ^ 20) = "101.00".
Proof. reflexivity. Qed.

Example format_2f_small : format_2f 17 = "0.00".
Proof. reflexivity. Qed.

Example to_double_tie : to_double (2 ^ 53 + 1) = 2 ^ 53.
Proof. reflexivity. Qed.

Example to_double_up : to_double (2 ^ 53 + 3) = 2 ^ 53 + 4.
Proof. reflexivity. Qed.

Example UUID_str_version4 :
  UUID_str (UUID_version4 0) = "00000000-0000-4000-8000-000000000000".
Proof. reflexivity. Qed.

Example waits_of_the_service :
  map (wait_exponential 1 4 10) [1; 2; 3; 4; 5] = [4; 4; 4; 8; 10].
Proof. reflexivity. Qed.

(** ** Filename sanitization *)

(** C7. Sanitization is not idempotent: the forbidden sequence [".."] is
    removed before [";"], so removing [";"] from [".;."] leaves [".."], which
    a second pass reduces to the empty name.  The sanitized name of the first
    pass is itself a traversal sequence. *)
Lemma sanitize_filename_not_idempotent :
  sanitize_filename ".;." = ".."
  /\ sanitize_filename (sanitize_filename ".;.") = ""
  /\ sanitize_filename (sanitize_filename ".;.") <> sanitize_filename ".;.".
Proof. repeat split; try reflexivity. discriminate. Qed.

(** ** The size check *)

Lemma to_double_small (a : Z) : a < 2 ^ 53 -> to_double a = a.
Proof.
  intros Ha. unfold to_double.
  destruct (a <? 2 ^ 53) eqn:E; [reflexivity | apply Z.ltb_ge in E; lia].
Qed.

Lemma true_div_mb_small (n : Z) : 0 <= n < 2 ^ 53 -> true_div_mb n = Ok n.
Proof.
  intros Hn. unfold true_div_mb.
  rewrite Z.abs_eq by lia. rewrite to_double_small by lia.
  destruct (n >=? 2 ^ 1044) eqn:E.
  - apply Z.geb_le in E.
    assert (2 ^ 53 <= 2 ^ 1044) by (apply Z.pow_le_mono_r; lia). lia.
  - f_equal. destruct (Z.eq_dec n 0) as [-> | Hne]; [reflexivity |].
    rewrite Z.sgn_pos by lia. lia.
Qed.

(** With the limit present in the dictionary the boundary is exact, as long
    as the sizes involved are integers a double holds exactly. *)
Lemma validate_file_size_boundary (cfg : gmap string cfg_value) (M : Z) :
  cfg !! "max_file_size_mb" = Some (CInt M) ->
  0 <= M < 2 ^ 33 ->
  validate_file_size cfg (M * 1024 * 1024) = Ok (true, "")
  /\ validate_file_size cfg (M * 1024 * 1024 + 1)
     = Ok (false, "File size " ++ format_2f (M * 1024 * 1024 + 1)
                  ++ "MB exceeds maximum allowed size of " ++ dec M ++ "MB").
Proof.
  intros Hcfg HM. unfold validate_file_size. rewrite Hcfg.
  assert (H53 : 2 ^ 53 = 2 ^ 33 * 1024 * 1024) by reflexivity.
  assert (H20 : 2 ^ 20 = 1024 * 1024) by reflexivity.
  rewrite !true_div_mb_small by lia. rewrite H20. split.
  - destruct (M * 1024 * 1024 >? M * (1024 * 1024)) eqn:E; [| reflexivity].
    apply Z.gtb_lt in E. lia.
  - destruct (M * 1024 * 1024 + 1 >? M * (1024 * 1024)) eqn:E; [reflexivity |].
    rewrite Z.gtb_ltb in E. apply Z.ltb_ge in E. lia.
Qed.

(** Past that range the float division rounds one byte away. *)
Lemma validate_file_size_rounds :
  validate_file_size (<["max_file_size_mb" := CInt (2 ^ 33)]> ∅)
                     (2 ^ 33 * 1024 * 1024 + 1) = Ok (true, "").
Proof. vm_compute. reflexivity. Qed.

(** What a successful [load_config] has found: every integer setting
    parsed. *)
Ltac load_config_inv H :=
  unfold load_config, result_bind in H;
  repeat match type of H with
         | context [match ?r with Ok _ => _ | Raise _ => _ end] =>
             destruct r; [| discriminate H]
         end;
  destruct (missing_vars _) in H; [| discriminate H];
  destruct (String.eqb (ENVIRONMENT _) "production") in H;
    [| destruct (String.eqb (ENVIRONMENT _) "staging") in H];
  injection H as <-.

(** The dictionary [load_config] builds never holds the key: the limit is
    an entry of [storage_config]. *)
Lemma load_config_no_size_limit (env : Environment) (c : Config) :
  load_config env = Ok c ->
  config_service c !! "max_file_size_mb" = None
  /\ exists M, config_storage c !! "max_file_size_mb" = Some (CInt M).
Proof. intros H. load_config_inv H; split; try reflexivity; eexists; reflexivity. Qed.

Lemma validate_file_size_load_config (env : Environment) (c : Config) (n : Z) :
  load_config env = Ok c ->
  exists e, validate_file_size (config_service c) n = Raise e.
Proof.
  intros H. apply load_config_no_size_limit in H as [H _].
  unfold validate_file_size. rewrite H.
  destruct (true_div_mb n); eauto.
Qed.

(** C8. Under the configuration the service loads, the size check raises
    [KeyError] at exactly the configured 100 MB, and one byte over: it
    neither passes nor gives a size-specific reason, and [validate_file]
    reports a generic validation error. *)
Lemma validate_file_size_loaded_config :
  validate_file_size loaded_service_config (100 * 1024 * 1024)
  = Raise (KeyError "max_file_size_mb")
  /\ validate_file_size loaded_service_config (100 * 1024 * 1024 + 1)
     = Raise (KeyError "max_file_size_mb")
  /\ validate_file loaded_service_config sniff digest scan_clean
                   pdf_content "application/pdf" "test_document.pdf"
     = (false, "File validation error: 'max_file_size_mb'",
        {| original_filename := "test_document.pdf";
           sanitized_filename := "test_document.pdf";
           file_size_bytes := 4; md_mime_type := "application/pdf";
           file_hash := ""; validation_time_ms := 0 |}).
Proof. vm_compute. repeat split; reflexivity. Qed.

(** ** Content-type check *)

(** C6, as stated, fails: the two types are compared after [lower()], so a
    claimed type that differs from the sniffed one only by case passes, under
    the configuration the service loads. *)
Lemma validate_mime_type_case_insensitive :
  sniff pdf_content = Ok "application/pdf"
  /\ "application/pdf" <> "APPLICATION/PDF"
  /\ validate_mime_type loaded_service_config sniff pdf_content "APPLICATION/PDF"
     = (true, "")
  /\ validate_file patched_service_config sniff digest scan_clean
                   pdf_content "APPLICATION/PDF" "test_document.pdf"
     = (true, "",
        {| original_filename := "test_document.pdf";
           sanitized_filename := "test_document.pdf";
           file_size_bytes := 4; md_mime_type := "APPLICATION/PDF";
           file_hash := "sha256:4"; validation_time_ms := 0 |}).
Proof. vm_compute. repeat split; try reflexivity. discriminate. Qed.

(** C6, amended. For a claimed and a sniffed type that are ASCII strings:
    whenever the two differ after both are lower-cased, [validate_mime_type]
    fails with the mismatch reason and [validate_file] fails, whatever the
    configuration (and so whatever the allow-list holds). *)
Theorem validate_mime_type_mismatch
    (cfg : gmap string cfg_value) (magic : bytes -> result string)
    (sha : bytes -> string) (clamd : bytes -> result (string * string))
    (C : bytes) (T name detected : string) :
  Str.is_ascii T = true ->
  magic C = Ok detected ->
  Str.is_ascii detected = true ->
  Str.lower detected <> Str.lower T ->
  validate_mime_type cfg magic C T
  = (false, "MIME type mismatch: claimed " ++ T ++ ", detected " ++ detected)
  /\ fst (fst (validate_file cfg magic sha clamd C T name)) = false.
Proof.
  intros _ Hmagic _ Hne.
  assert (Hmime : validate_mime_type cfg magic C T
                  = (false, "MIME type mismatch: claimed " ++ T
                            ++ ", detected " ++ detected)).
  { unfold validate_mime_type. rewrite Hmagic.
    apply String.eqb_neq in Hne. rewrite Hne. reflexivity. }
  split; [exact Hmime |].
  unfold validate_file. destruct C as [| b C']; [reflexivity |].
  rewrite Hmime. reflexivity.
Qed.

Lemma validate_mime_type_mismatch_witness :
  validate_mime_type (∅ : gmap string cfg_value) sniff exe_content "application/pdf"
  = (false, "MIME type mismatch: claimed application/pdf, detected application/x-msdownload")
  /\ fst (fst (validate_file ∅ sniff digest scan_clean exe_content
                             "application/pdf" "setup.pdf")) = false.
Proof.
  apply (validate_mime_type_mismatch ∅ sniff digest scan_clean exe_content
           "application/pdf" "setup.pdf" "application/x-msdownload").
  - reflexivity.
  - reflexivity.
  - reflexivity.
  - vm_compute. discriminate.
Defined.

(** ** Reasoning about effects *)

Lemma bind_Ok_inv {A B} (m : M A) (k : A -> M B) w b w' :
  bind m k w = (Ok b, w') ->
  exists a w1, m w = (Ok a, w1) /\ k a w1 = (Ok b, w').
Proof.
  unfold bind. destruct (m w) as [[a | e] w1]; [eauto | discriminate].
Qed.

Lemma bind_Raise_inv {A B} (m : M A) (k : A -> M B) w e w' :
  bind m k w = (Raise e, w') ->
  m w = (Raise e, w') \/ exists a w1, m w = (Ok a, w1) /\ k a w1 = (Raise e, w').
Proof.
  unfold bind. destruct (m w) as [[a | e0] w1]; [eauto |].
  intros [= <- <-]. by left.
Qed.

Lemma logging_errors_Ok_inv {A} prefix (body : M A) w a w' :
  logging_errors prefix body w = (Ok a, w') -> body w = (Ok a, w').
Proof.
  unfold logging_errors. destruct (body w) as [[a0 | e] w1]; [done | discriminate].
Qed.

Lemma logging_errors_Raise_inv {A} prefix (body : M A) w e w' :
  logging_errors prefix body w = (Raise e, w') ->
  exists w1, body w = (Raise e, w1) /\ w' = add_log "ERROR" (prefix ++ exn_str e) w1.
Proof.
  unfold logging_errors. destruct (body w) as [[a0 | e0] w1]; [discriminate |].
  intros [= <- <-]. eauto.
Qed.

(** What a backend call leaves alone. *)
Lemma backend_call_frame mk w r w' :
  backend_call mk w = (r, w') ->
  bucket w' = bucket w /\ documents w' = documents w
  /\ sleeps w' = sleeps w /\ log w' = log w /\ clock w' = clock w
  /\ match r with
     | Ok _ => True
     | Raise e => exists text, e = mk text
     end.
Proof.
  unfold backend_call. destruct (faults w) as [| [text |] rest];
    intros [= <- <-]; simpl; eauto 10.
Qed.

(** A property of worlds that every attempt and every sleep keeps holds after
    the retry loop, and the outcome of the loop is the outcome of one of the
    attempts, run from a world with the property. *)
Lemma attempts_inv {A} (I : World -> Prop) (wait : Z -> Z) (f : M A) :
  (forall w r w', I w -> f w = (r, w') -> I w') ->
  (forall s w, I w -> I (sleep_world s w)) ->
  forall more n w r w',
    I w -> attempts wait more n f w = (r, w') ->
    I w'
    /\ exists w1, I w1
       /\ match r with
          | Ok a => f w1 = (Ok a, w')
          | Raise e => exists e0, e = RetryError e0 /\ f w1 = (Raise e0, w')
          end.
Proof.
  intros Hf Hs more. induction more as [| k IH]; intros n w r w' HI H; simpl in H.
  - destruct (f w) as [[a | e] w1] eqn:E; injection H as <- <-;
      (split; [by eapply Hf |]); exists w; eauto.
  - destruct (f w) as [[a | e] w1] eqn:E.
    + injection H as <- <-. split; [by eapply Hf |]. exists w; eauto.
    + eapply IH; [| exact H]. apply Hs. by eapply Hf.
Qed.

(** ** Upload *)

Lemma validate_file_valid_metadata cfg magic sha clamd content mime name msg md :
  validate_file cfg magic sha clamd content mime name = (true, msg, md) ->
  content <> []
  /\ sanitized_filename md = sanitize_filename name
  /\ file_hash md = sha content.
Proof.
  unfold validate_file. destruct content as [| b rest]; [discriminate |].
  destruct (validate_mime_type _ _ _ _) as [mv me].
  destruct mv; simpl; [| discriminate].
  destruct (validate_file_size _ _) as [[sv se] | e]; [| discriminate].
  destruct sv; simpl; [| discriminate].
  destruct (negb (fst _)); [discriminate |].
  destruct (cfg !! "content_validation_rules"); [| discriminate].
  intros [= <- <-]. done.
Qed.

Section ServiceProperties.

Variable service_config : gmap string cfg_value.
Variable magic_from_buffer : bytes -> result string.
Variable sha256_hexdigest : bytes -> string.
Variable clamd_instream : bytes -> result (string * string).
Variable s3_presign : string -> string -> Z -> string.
Variable self : StorageService.

Local Abbreviation validate :=
  (validate_file service_config magic_from_buffer sha256_hexdigest clamd_instream).
Local Abbreviation upload_body :=
  (upload_file_body service_config magic_from_buffer sha256_hexdigest
                    clamd_instream self).
Local Abbreviation upload :=
  (upload_file service_config magic_from_buffer sha256_hexdigest
               clamd_instream self).
Local Abbreviation download := (download_file sha256_hexdigest).
Local Abbreviation download_body := (download_file_body sha256_hexdigest).

(** An attempt whose validation fails raises before any backend call. *)
Lemma upload_file_body_invalid content name mime app reason md w :
  validate content mime name = (false, reason, md) ->
  upload_body content name mime app w
  = (Raise (ValueError ("File validation failed: " ++ reason)),
     add_log "ERROR" ("Upload failed: File validation failed: " ++ reason) w).
Proof.
  intros H. unfold upload_file_body, logging_errors.
  rewrite H. reflexivity.
Qed.

(** The whole of [upload_file] on such an upload: three attempts, two
    sleeps. *)
Lemma upload_file_invalid content name mime app reason md w :
  validate content mime name = (false, reason, md) ->
  let failed := add_log "ERROR" ("Upload failed: File validation failed: " ++ reason) in
  upload content name mime app w
  = (Raise (RetryError (ValueError ("File validation failed: " ++ reason))),
     failed (sleep_world 4 (failed (sleep_world 4 (failed w))))).
Proof.
  intros H failed. unfold upload_file, retry. simpl.
  rewrite !(upload_file_body_invalid _ _ _ _ _ _ _ H). reflexivity.
Qed.

(** C5, amended. An upload whose validation fails ends in an exception
    and has no side effect on the stores: the object store and the documents
    collection are as they were, and no backend call is made at all (the
    fault script is not consumed).  It does not fail fast: the exception
    comes after two sleeps of 4 seconds. *)
Theorem upload_file_invalid_no_side_effects content name mime app reason md w :
  validate_file service_config magic_from_buffer sha256_hexdigest
                clamd_instream content mime name = (false, reason, md) ->
  (exists e, fst (upload_file service_config magic_from_buffer sha256_hexdigest
                     clamd_instream self content name mime app w) = Raise e)
  /\ bucket (snd (upload_file service_config magic_from_buffer sha256_hexdigest
                     clamd_instream self content name mime app w)) = bucket w
  /\ documents (snd (upload_file service_config magic_from_buffer sha256_hexdigest
                     clamd_instream self content name mime app w)) = documents w
  /\ faults (snd (upload_file service_config magic_from_buffer sha256_hexdigest
                     clamd_instream self content name mime app w)) = faults w
  /\ sleeps (snd (upload_file service_config magic_from_buffer sha256_hexdigest
                     clamd_instream self content name mime app w))
     = (sleeps w ++ [4; 4])%list
  /\ clock (snd (upload_file service_config magic_from_buffer sha256_hexdigest
                     clamd_instream self content name mime app w))
     = clock w + 8.
Proof.
  intros H. rewrite (upload_file_invalid _ _ _ _ _ _ _ H). simpl.
  split_and!; eauto; [by rewrite <- app_assoc | lia].
Qed.


(** [save] raises before it writes. *)
Lemma Document_save_inv d w r w' :
  Document_save d w = (r, w') -> w' = w /\ r = Raise save_error.
Proof. unfold Document_save, raise. by intros [= <- <-]. Qed.

Lemma mem_In x l : Str.mem x l = true -> In x l.
Proof.
  unfold Str.mem. rewrite existsb_exists. intros (y & Hy & Heq).
  apply String.eqb_eq in Heq. by subst.
Qed.

Lemma tzinfo_eqb_eq a b : tzinfo_eqb a b = true -> a = b.
Proof.
  destruct a, b; simpl; try discriminate.
  - intros H. apply Z.eqb_eq in H. by subst.
  - intros H. apply String.eqb_eq in H. by subst.
Qed.

Lemma Document_validate_checks_Ok d b :
  Document_validate_checks d = Ok b -> b = true /\ validated d.
Proof.
  unfold Document_validate_checks, validated.
  destruct (file_name d) as [n |]; [| discriminate].
  destruct (Str.is_empty n) eqn:Hn; [discriminate |].
  destruct (Str.contains ".." n) eqn:Hdots; [discriminate |].
  destruct (Str.contains "/" n) eqn:Hslash; [discriminate |].
  cbn [orb negb].
  destruct (mime_type d) as [m |]; [| discriminate].
  destruct (Str.mem m ALLOWED_MIME_TYPES) eqn:Hm; [| discriminate].
  cbn [negb].
  destruct (file_size d) as [s |]; [| discriminate].
  destruct (0 <=? s) eqn:H0; [| discriminate].
  destruct (s <=? MAX_FILE_SIZE_MB * 1024 * 1024) eqn:H1; [| discriminate].
  cbn [andb negb].
  destruct (Str.startswith "documents/" (storage_path d)) eqn:Hp; [| discriminate].
  destruct (Str.contains ".." (storage_path d)) eqn:Hpd; [discriminate |].
  cbn [orb negb].
  destruct (application_id d) as [a |]; [| discriminate].
  destruct (dt_tzinfo (uploaded_at d)) as [tz |]; [| discriminate].
  destruct (tzinfo_eqb tz timezone_utc) eqn:Htz; [| discriminate].
  cbn [negb].
  intros [= <-]. split; [reflexivity |].
  exists n, m, s, a. apply tzinfo_eqb_eq in Htz as ->.
  apply Z.leb_le in H0, H1. unfold MAX_FILE_SIZE_MB in H1.
  repeat split; auto using mem_In; try lia.
  intros ->. discriminate.
Qed.

Lemma Document_validate_Ok d b :
  Document_validate d = Ok b -> b = true /\ validated d.
Proof.
  unfold Document_validate.
  destruct (Document_validate_checks d) as [b' | e] eqn:E; [| discriminate].
  intros [= <-]. by apply Document_validate_checks_Ok.
Qed.

(** ** Pre-signed URLs *)

Local Abbreviation presigned := (generate_presigned_url s3_presign self).

(** C4, amended. [generate_presigned_url] does not clamp: a path that
    fails the prefix or traversal check is rejected, an expiry outside
    300..7200 seconds is rejected with its own reason and without a call to
    the signer, and an expiry within the range is passed to the signer as the
    caller gave it. *)
Theorem generate_presigned_url_spec storage_path expiry_seconds w :
  (valid_storage_path storage_path = false ->
   fst (generate_presigned_url s3_presign self storage_path expiry_seconds w)
   = Raise (ValueError "Invalid storage path"))
  /\ (valid_storage_path storage_path = true ->
      expiry_seconds < 300 \/ 7200 < expiry_seconds ->
      fst (generate_presigned_url s3_presign self storage_path expiry_seconds w)
      = Raise (ValueError "Invalid expiry duration")
      /\ faults (snd (generate_presigned_url s3_presign self storage_path
                                             expiry_seconds w))
         = faults w)
  /\ (valid_storage_path storage_path = true ->
      300 <= expiry_seconds <= 7200 ->
      next_call_fails w = false ->
      fst (generate_presigned_url s3_presign self storage_path expiry_seconds w)
      = Ok (s3_presign (_bucket_name self) storage_path expiry_seconds)).
Proof.
  unfold valid_storage_path, generate_presigned_url, logging_errors.
  destruct (Str.startswith "documents/" storage_path);
    destruct (Str.contains ".." storage_path); cbn [andb orb negb];
    (split; [| split]); try discriminate; try reflexivity.
  - intros _ Hout.
    assert ((300 <=? expiry_seconds) && (expiry_seconds <=? 7200) = false) as ->.
    { apply andb_false_iff. rewrite !Z.leb_gt. lia. }
    split; reflexivity.
  - intros _ Hin Hnext.
    assert ((300 <=? expiry_seconds) && (expiry_seconds <=? 7200) = true) as ->.
    { apply andb_true_iff. rewrite !Z.leb_le. lia. }
    unfold next_call_fails in Hnext. unfold bind, backend_call. cbn [negb].
    destruct (faults w) as [| [text |] rest]; try discriminate; reflexivity.
Qed.

(** ** Download *)

Lemma s3_get_object_inv Key w r w' :
  s3_get_object Key w = (r, w') ->
  bucket w' = bucket w /\ documents w' = documents w
  /\ match r with
     | Ok obj => bucket w !! Key = Some obj
     | Raise e => exists code, e = ClientError code
     end.
Proof.
  unfold s3_get_object, bind.
  destruct (backend_call _ w) as [[[] | e] w1] eqn:E;
    apply backend_call_frame in E as (Hb & Hd & _ & _ & _ & He).
  - rewrite Hb. destruct (bucket w !! Key) eqn:Hk; intros [= <- <-]; eauto.
  - intros [= <- <-]. auto.
Qed.

(** One attempt of [download_file] leaves the stores alone, and fails the
    integrity check only on an object that carries a hash other than the
    hash of its body. *)
Lemma download_file_body_inv storage_path w r w' :
  download_body storage_path w = (r, w') ->
  bucket w' = bucket w /\ documents w' = documents w
  /\ (r = Raise (ValueError "File integrity check failed") ->
      exists obj stored_hash,
        bucket w !! storage_path = Some obj
        /\ Metadata obj !! "file_hash" = Some stored_hash
        /\ stored_hash <> ""
        /\ stored_hash <> generate_file_hash sha256_hexdigest (Body obj)).
Proof.
  unfold download_file_body, logging_errors.
  destruct (negb _ || _).
  { intros [= <- <-]. simpl. repeat split. discriminate. }
  unfold bind at 1.
  destruct (s3_get_object storage_path w) as [[obj | e] w1] eqn:Hget;
    apply s3_get_object_inv in Hget as (Hb & Hd & Hget).
  2:{ intros [= <- <-]. simpl. repeat split; auto.
      destruct Hget as [code ->]. discriminate. }
  destruct (Metadata obj !! "file_hash") as [stored_hash |] eqn:Hmeta.
  - destruct (Str.is_empty stored_hash) eqn:Hempty; cbn [negb andb].
    + intros [= <- <-]. simpl. repeat split; auto. discriminate.
    + destruct (String.eqb stored_hash _) eqn:Heq; cbn [negb].
      * intros [= <- <-]. simpl. repeat split; auto. discriminate.
      * intros [= <- <-]. simpl. repeat split; auto. intros _.
        exists obj, stored_hash. repeat split; auto.
        -- intros ->. discriminate.
        -- by apply String.eqb_neq.
  - intros [= <- <-]. simpl. repeat split; auto. discriminate.
Qed.

(** One attempt on a stored object without a hash returns its bytes unless
    the fetch itself fails. *)
Lemma download_file_body_no_hash storage_path w obj r w' :
  valid_storage_path storage_path = true ->
  bucket w !! storage_path = Some obj ->
  Metadata obj !! "file_hash" = None ->
  download_body storage_path w = (r, w') ->
  r = Ok (Body obj, ContentType obj) \/ exists code, r = Raise (ClientError code).
Proof.
  intros Hvalid Hobj Hmeta.
  unfold valid_storage_path in Hvalid. apply andb_true_iff in Hvalid as [Hpre Hd].
  apply negb_true_iff in Hd.
  unfold download_file_body, logging_errors. rewrite Hpre, Hd. cbn [negb orb].
  unfold bind at 1.
  destruct (s3_get_object storage_path w) as [[obj' | e] w1] eqn:Hget;
    apply s3_get_object_inv in Hget as (_ & _ & Hget).
  - rewrite Hobj in Hget. injection Hget as <-. rewrite Hmeta.
    intros [= <- <-]. by left.
  - destruct Hget as [code ->]. intros [= <- <-]. right. by exists code.
Qed.

(** C9. When the object's metadata has no ['file_hash'] entry,
    [download_file] computes no hash: it returns the fetched bytes and
    content type as soon as a fetch succeeds (at once when the first one
    does), and otherwise ends in the error of the object store, never in an
    integrity error.  Whatever the backends do, it fails the integrity check
    only on an object whose stored hash is present and differs from the hash
    of the body. *)
Theorem download_file_integrity_check storage_path w :
  (forall obj,
      valid_storage_path storage_path = true ->
      bucket w !! storage_path = Some obj ->
      Metadata obj !! "file_hash" = None ->
      (fst (download_file sha256_hexdigest storage_path w)
       = Ok (Body obj, ContentType obj)
       \/ exists code,
            fst (download_file sha256_hexdigest storage_path w)
            = Raise (RetryError (ClientError code)))
      /\ (next_call_fails w = false ->
          fst (download_file sha256_hexdigest storage_path w)
          = Ok (Body obj, ContentType obj)))
  /\ (fst (download_file sha256_hexdigest storage_path w)
      = Raise (RetryError (ValueError "File integrity check failed")) ->
      exists obj stored_hash,
        bucket w !! storage_path = Some obj
        /\ Metadata obj !! "file_hash" = Some stored_hash
        /\ stored_hash <> generate_file_hash sha256_hexdigest (Body obj)).
Proof.
  split.
  - intros obj Hvalid Hobj Hmeta. split.
    + destruct (download storage_path w) as [r w'] eqn:H. simpl.
      unfold download_file, retry in H.
      eapply (attempts_inv (fun w1 => bucket w1 = bucket w)) in H
        as (_ & w1 & Hw1 & H); auto.
      * rewrite <- Hw1 in Hobj. destruct r as [a | e].
        -- eapply download_file_body_no_hash in H as [[= ->] | [code [=]]]; eauto.
        -- destruct H as (e0 & -> & H).
           eapply download_file_body_no_hash in H as [[=] | [code [= ->]]]; eauto.
      * intros w2 r2 w2' Hw2 Hbody.
        apply download_file_body_inv in Hbody as (Hb & _). congruence.
    + intros Hnext.
      unfold download_file, retry, attempts, Nat.pred.
      unfold download_file_body, logging_errors.
      unfold valid_storage_path in Hvalid. apply andb_true_iff in Hvalid as [-> Hd].
      apply negb_true_iff in Hd. rewrite Hd. cbn [negb orb].
      unfold bind, s3_get_object, bind, backend_call, next_call_fails in *.
      destruct (faults w) as [| [text |] rest]; try discriminate;
        simpl; rewrite Hobj, Hmeta; reflexivity.
  - destruct (download storage_path w) as [r w'] eqn:H. simpl. intros ->.
    unfold download_file, retry in H.
    eapply (attempts_inv (fun w1 => bucket w1 = bucket w)) in H
      as (_ & w1 & Hw1 & e0 & [= <-] & H); auto.
    + apply download_file_body_inv in H as (_ & _ & H).
      destruct (H eq_refl) as (obj & stored_hash & Hobj & Hmeta & _ & Hne).
      exists obj, stored_hash. by rewrite <- Hw1.
    + intros w2 r2 w2' Hw2 Hbody.
      apply download_file_body_inv in Hbody as (Hb & _). congruence.
Qed.

(** ** The collection is never written *)

Lemma latest_In p docs d : latest p docs = Some d -> In d docs.
Proof.
  unfold latest.
  assert (forall best,
             fold_left
               (fun best d =>
                  if p d then
                    match best with
                    | None => Some d
                    | Some b =>
                        if timestamp (uploaded_at b) <? timestamp (uploaded_at d)
                        then Some d else Some b
                    end
                  else best) docs best = Some d ->
             best = Some d \/ In d docs) as H.
  { induction docs as [| x rest IH]; intros best; simpl; [auto |].
    intros Hfold. apply IH in Hfold as [Hbest | Hin]; [| auto].
    destruct (p x); [| auto].
    destruct best as [b |]; [| injection Hbest as ->; auto].
    destruct (_ <? _); injection Hbest as ->; auto. }
  intros Hl. apply H in Hl as [? | ?]; [discriminate | done].
Qed.

Lemma s3_delete_object_inv Key w r w' :
  s3_delete_object Key w = (r, w') -> documents w' = documents w.
Proof.
  unfold s3_delete_object, bind.
  destruct (backend_call _ w) as [[[] | e] w1] eqn:E;
    apply backend_call_frame in E as (_ & Hd & _); by intros [= <- <-].
Qed.

Lemma s3_put_object_inv Key obj w r w' :
  s3_put_object Key obj w = (r, w') -> documents w' = documents w.
Proof.
  unfold s3_put_object, bind.
  destruct (backend_call _ w) as [[[] | e] w1] eqn:E;
    apply backend_call_frame in E as (_ & Hd & _); by intros [= <- <-].
Qed.

Lemma Document_objects_storage_path_first_inv p w r w' :
  Document_objects_storage_path_first p w = (r, w') ->
  documents w' = documents w
  /\ forall d, r = Ok (Some d) -> In d (documents w).
Proof.
  unfold Document_objects_storage_path_first, bind.
  destruct (backend_call _ w) as [[[] | e] w1] eqn:E;
    apply backend_call_frame in E as (_ & Hd & _); intros [= <- <-];
    (split; [done |]); [| discriminate].
  intros d [= Hl]. apply latest_In in Hl. by rewrite <- Hd.
Qed.

Lemma Document_objects_id_first_inv i w r w' :
  Document_objects_id_first i w = (r, w') ->
  documents w' = documents w
  /\ forall d, r = Ok (Some d) -> In d (documents w).
Proof.
  unfold Document_objects_id_first, bind.
  destruct (backend_call _ w) as [[[] | e] w1] eqn:E;
    apply backend_call_frame in E as (_ & Hd & _); intros [= <- <-];
    (split; [done |]); [| discriminate].
  intros d [= Hl]. apply latest_In in Hl. by rewrite <- Hd.
Qed.

(** No attempt of [delete_file] changes the collection: the record it
    finds is changed in memory only, since [save] raises. *)
Lemma delete_file_body_documents storage_path w r w' :
  delete_file_body storage_path w = (r, w') -> documents w' = documents w.
Proof.
  unfold delete_file_body, logging_errors.
  destruct (negb _ || _); [by intros [= <- <-] |].
  unfold bind at 1.
  destruct (s3_delete_object storage_path w) as [[[] | e] w1] eqn:E1;
    apply s3_delete_object_inv in E1; [| by intros [= <- <-]].
  unfold bind at 1.
  destruct (Document_objects_storage_path_first storage_path w1)
    as [[found | e] w2] eqn:E2;
    apply Document_objects_storage_path_first_inv in E2 as [E2 _];
    [| intros [= <- <-]; simpl; congruence].
  destruct found as [x |]; intros [= <- <-]; simpl; congruence.
Qed.

(** Nor does an attempt of [upload_file]. *)
Lemma upload_file_body_documents content name mime app w r w' :
  upload_body content name mime app w = (r, w') -> documents w' = documents w.
Proof.
  unfold upload_file_body, logging_errors.
  destruct (validate content mime name) as [[is_valid msg] md].
  destruct is_valid; cbn [negb]; [| by intros [= <- <-]].
  unfold bind at 1, uuid4 at 1. unfold bind at 1.
  destruct (s3_put_object _ _ _) as [[[] | e] w1] eqn:E1;
    apply s3_put_object_inv in E1; simpl in E1; [| by intros [= <- <-]].
  unfold bind at 1, Document_new, bind, uuid4, datetime_now_utc, ret, lift.
  destruct (Document_validate _) as [b | e]; by intros [= <- <-].
Qed.

(** What every attempt keeps, the retry loop keeps. *)
Lemma attempts_documents {A} (wait : Z -> Z) (f : M A) :
  (forall w r w', f w = (r, w') -> documents w' = documents w) ->
  forall more n w, documents (snd (attempts wait more n f w)) = documents w.
Proof.
  intros Hf more n w.
  destruct (attempts wait more n f w) as [r w'] eqn:H. simpl.
  eapply (attempts_inv (fun w1 => documents w1 = documents w)) in H as [H _]; eauto.
  intros w1 r1 w1' Hw1 Hbody. apply Hf in Hbody. congruence.
Qed.

Lemma upload_file_documents content name mime app w :
  documents (snd (upload content name mime app w)) = documents w.
Proof.
  apply attempts_documents. intros w1 r w1'. apply upload_file_body_documents.
Qed.

Lemma delete_file_documents storage_path w :
  documents (snd (delete_file storage_path w)) = documents w.
Proof.
  apply attempts_documents. intros w1 r w1'. apply delete_file_body_documents.
Qed.



(** The handlers: [http_errors] adds a log entry at most. *)
Lemma http_errors_documents {A} prefix (body : M A) w :
  documents (snd (http_errors prefix body w)) = documents (snd (body w)).
Proof. unfold http_errors. by destruct (body w) as [[a | e] w1]. Qed.

Lemma verify_document_documents document_id w :
  documents (snd (verify_document document_id w)) = documents w.
Proof.
  unfold verify_document. rewrite http_errors_documents. unfold bind at 1.
  destruct (Document_objects_id_first document_id w) as [[found | e] w1] eqn:E1;
    apply Document_objects_id_first_inv in E1 as [E1 _]; [| done].
  by destruct found.
Qed.


Lemma delete_document_documents document_id w :
  documents (snd (delete_document document_id w)) = documents w.
Proof.
  unfold delete_document. rewrite http_errors_documents. unfold bind at 1.
  destruct (Document_objects_id_first document_id w) as [[found | e] w1] eqn:E1;
    apply Document_objects_id_first_inv in E1 as [E1 _]; [| done].
  destruct found as [x |]; [| done].
  unfold bind at 1. pose proof (delete_file_documents (storage_path x) w1) as Hd.
  destruct (delete_file (storage_path x) w1) as [[b | e] w2]; simpl in *; congruence.
Qed.


Lemma upload_document_documents content request w :
  documents (snd (upload_document service_config magic_from_buffer
                    sha256_hexdigest clamd_instream self content request w))
  = documents w.
Proof.
  unfold upload_document. rewrite http_errors_documents.
  destruct (validate content _ _) as [[is_valid msg] md].
  destruct is_valid; cbn [negb]; [| done].
  unfold bind at 1.
  pose proof (upload_file_documents content (sanitized_filename md)
                (req_mime_type request) (req_application_id request) w) as Hd.
  destruct (upload content _ _ _ w) as [[doc | e] w1]; simpl in Hd; [| done].
  unfold bind at 1, lift. by destruct (response_of doc None 0).
Qed.


End ServiceProperties.

(** ** The properties at work on concrete requests *)

Lemma outcome_eq {A} (x : result A * World) (a : A) :
  fst x = Ok a -> x = (Ok a, snd x).
Proof. destruct x as [r w]. simpl. by intros ->. Qed.




(** C5, as stated, fails: the upload of an executable claimed as a PDF is
    rejected by validation, and [upload_file] delivers the failure only
    after it has slept twice 4 seconds. *)
Lemma upload_file_invalid_is_not_fast :
  fst (fst (validate_file patched_service_config sniff digest scan_clean
                          exe_content "application/pdf" "setup.pdf")) = false
  /\ sleeps (snd (upload_file patched_service_config sniff digest scan_clean service
                      exe_content "setup.pdf" "application/pdf" app_id empty_world))
     = [4; 4]
  /\ clock (snd (upload_file patched_service_config sniff digest scan_clean service
                      exe_content "setup.pdf" "application/pdf" app_id empty_world))
     = clock empty_world + 8.
Proof. vm_compute. repeat split; reflexivity. Qed.

Lemma upload_file_invalid_no_side_effects_witness :
  validate_file patched_service_config sniff digest scan_clean
                exe_content "application/pdf" "setup.pdf"
  = (false,
     "MIME type mismatch: claimed application/pdf, detected application/x-msdownload",
     exe_metadata)
  /\ bucket (snd (upload_file patched_service_config sniff digest scan_clean service
                      exe_content "setup.pdf" "application/pdf" app_id empty_world))
     = ∅
  /\ documents (snd (upload_file patched_service_config sniff digest scan_clean service
                      exe_content "setup.pdf" "application/pdf" app_id empty_world))
     = []
  /\ sleeps (snd (upload_file patched_service_config sniff digest scan_clean service
                      exe_content "setup.pdf" "application/pdf" app_id empty_world))
     = [4; 4].
Proof.
  assert (validate_file patched_service_config sniff digest scan_clean
            exe_content "application/pdf" "setup.pdf"
          = (false,
             "MIME type mismatch: claimed application/pdf, detected application/x-msdownload",
             exe_metadata)) as H by (vm_compute; reflexivity).
  split; [exact H |].
  destruct (upload_file_invalid_no_side_effects _ _ _ _ service _ _ _ app_id
              _ _ empty_world H) as (_ & Hb & Hd & _ & Hs & _).
  split; [exact Hb |]. split; [exact Hd | exact Hs].
Defined.

(** C4, as stated, fails: an expiry below or above the range is not clamped
    but rejected, and no URL is produced. *)
Lemma generate_presigned_url_rejects_expiry :
  valid_storage_path "documents/a/b/c.pdf" = true
  /\ fst (generate_presigned_url presign service "documents/a/b/c.pdf" 60 empty_world)
     = Raise (ValueError "Invalid expiry duration")
  /\ fst (generate_presigned_url presign service "documents/a/b/c.pdf" 86400 empty_world)
     = Raise (ValueError "Invalid expiry duration").
Proof. vm_compute. repeat split; reflexivity. Qed.

Lemma generate_presigned_url_spec_witness :
  fst (generate_presigned_url presign service "documents/../secret" 3600 empty_world)
  = Raise (ValueError "Invalid storage path")
  /\ fst (generate_presigned_url presign service "documents/a/b/c.pdf" 60 empty_world)
     = Raise (ValueError "Invalid expiry duration")
  /\ fst (generate_presigned_url presign service "documents/a/b/c.pdf" 3600 empty_world)
     = Ok (presign "documents-bucket" "documents/a/b/c.pdf" 3600).
Proof.
  split; [| split].
  - apply (proj1 (generate_presigned_url_spec presign service
                    "documents/../secret" 3600 empty_world)). reflexivity.
  - apply (proj1 (proj2 (generate_presigned_url_spec presign service
                           "documents/a/b/c.pdf" 60 empty_world)));
      [reflexivity | left; lia].
  - apply (proj2 (proj2 (generate_presigned_url_spec presign service
                           "documents/a/b/c.pdf" 3600 empty_world)));
      [reflexivity | lia | reflexivity].
Defined.

Lemma download_file_integrity_check_witness :
  fst (download_file digest "documents/a/b/c.pdf" (world_with_object ∅))
  = Ok (pdf_content, "application/pdf")
  /\ fst (download_file digest "documents/a/b/c.pdf"
            (world_with_object (<["file_hash" := "sha256:999"]> ∅)))
     = Raise (RetryError (ValueError "File integrity check failed"))
  /\ exists obj stored_hash,
       bucket (world_with_object (<["file_hash" := "sha256:999"]> ∅))
         !! "documents/a/b/c.pdf" = Some obj
       /\ Metadata obj !! "file_hash" = Some stored_hash
       /\ stored_hash <> generate_file_hash digest (Body obj).
Proof.
  split; [| split].
  - apply (proj1 (download_file_integrity_check digest "documents/a/b/c.pdf"
                    (world_with_object ∅)) (stored_object ∅));
      reflexivity.
  - vm_compute. reflexivity.
  - apply (proj2 (download_file_integrity_check digest "documents/a/b/c.pdf"
                    (world_with_object (<["file_hash" := "sha256:999"]> ∅)))).
    vm_compute. reflexivity.
Defined.

(** * Further properties of the code *)

(** ** What sanitization guarantees *)

Lemma contains_single c s :
  Str.contains (String c EmptyString) s = Str.has_char c s.
Proof.
  induction s as [| a rest IH]; [reflexivity |].
  simpl. rewrite IH. destruct (ascii_dec c a) as [-> | Hne].
  - assert (String.prefix "" rest = true) as -> by (destruct rest; reflexivity).
    by rewrite Ascii.eqb_refl.
  - assert (Ascii.eqb a c = false) as -> by (apply Ascii.eqb_neq; congruence).
    reflexivity.
Qed.

(** Removing occurrences never brings in a character. *)
Lemma remove_from_has_char old c s :
  Str.has_char c s = false ->
  forall skip, Str.has_char c (Str.remove_from old skip s) = false.
Proof.
  induction s as [| a rest IH]; intros H skip; [reflexivity |].
  simpl in H. apply orb_false_iff in H as [Ha Hrest].
  cbn [Str.remove_from]. destruct skip as [| k]; [| by apply IH].
  destruct (String.prefix old (String a rest)); [by apply IH |].
  simpl. rewrite Ha. by apply IH.
Qed.

(** Removing a single character leaves none of it. *)
Lemma remove_single_has_char c s :
  Str.has_char c (Str.remove (String c EmptyString) s) = false.
Proof.
  unfold Str.remove. induction s as [| a rest IH]; [reflexivity |].
  cbn [Str.remove_from String.prefix].
  destruct (ascii_dec c a) as [-> | Hne].
  - destruct rest; exact IH.
  - simpl. rewrite IH.
    assert (Ascii.eqb a c = false) as -> by (apply Ascii.eqb_neq; congruence).
    reflexivity.
Qed.

Lemma after_last_slash_has_char acc s :
  Str.has_char "/" acc = false ->
  Str.has_char "/" (Str.after_last_slash acc s) = false.
Proof.
  revert acc. induction s as [| a rest IH]; intros acc Hacc; [exact Hacc |].
  simpl. destruct (Ascii.eqb a "/") eqn:Ha; [by apply IH |].
  apply IH. clear IH. induction acc as [| b acc' IHacc]; simpl.
  - by rewrite Ha.
  - simpl in Hacc. apply orb_false_iff in Hacc as [-> Hacc']. by apply IHacc.
Qed.

Ltac removed_char :=
  first [ apply remove_single_has_char
        | apply after_last_slash_has_char; reflexivity
        | apply remove_from_has_char; removed_char ].

(** The sanitized name holds none of the forbidden single characters. *)
Lemma sanitize_filename_has_char filename c :
  In c (list_ascii_of_string "/\;&|*?<>^$") ->
  Str.has_char c (sanitize_filename filename) = false.
Proof.
  unfold sanitize_filename, forbidden_chars, basename. cbn [fold_left].
  intros Hc. simpl in Hc.
  repeat (destruct Hc as [<- | Hc]; [unfold Str.remove at 1; removed_char |]).
  destruct Hc.
Qed.

(** Whatever the file name, its sanitized form contains none of the
    forbidden sequences other than [".."]: no path separator of either kind
    and no shell metacharacter. *)
Theorem sanitize_filename_no_forbidden_character filename ch :
  In ch forbidden_chars ->
  ch <> ".." ->
  Str.contains ch (sanitize_filename filename) = false.
Proof.
  intros Hin Hne. unfold forbidden_chars in Hin. simpl in Hin.
  repeat (destruct Hin as [<- | Hin];
          [first [ congruence
                 | rewrite contains_single;
                   apply sanitize_filename_has_char; simpl; tauto ] |]).
  destruct Hin.
Qed.

Lemma sanitize_filename_no_forbidden_character_witness :
  In ";" forbidden_chars /\ ";" <> ".."
  /\ Str.contains ";" (sanitize_filename "../a;b/c|d;.pdf") = false.
Proof.
  split; [simpl; tauto |]. split; [discriminate |].
  apply sanitize_filename_no_forbidden_character; [simpl; tauto | discriminate].
Defined.

Lemma remove_absent old s :
  Str.contains old s = false -> Str.remove old s = s.
Proof.
  unfold Str.remove. induction s as [| a rest IH]; [reflexivity |].
  cbn [Str.contains Str.remove_from]. intros H.
  apply orb_false_iff in H as [-> Hrest]. by rewrite IH.
Qed.

Lemma append_nil_r s : s ++ "" = s.
Proof.
  induction s as [| b s IH]; [reflexivity |].
  change (String b s ++ "") with (String b (s ++ "")). by rewrite IH.
Qed.

Lemma append_snoc acc a rest : (acc ++ String a "") ++ rest = acc ++ String a rest.
Proof.
  induction acc as [| b acc IH]; [reflexivity |].
  change (String b ((acc ++ String a "") ++ rest) = String b (acc ++ String a rest)).
  by rewrite IH.
Qed.

Lemma after_last_slash_no_slash acc s :
  Str.has_char "/" s = false -> Str.after_last_slash acc s = acc ++ s.
Proof.
  revert acc. induction s as [| a rest IH]; intros acc H; simpl.
  - by rewrite append_nil_r.
  - simpl in H. apply orb_false_iff in H as [-> Hrest].
    rewrite IH by done. apply append_snoc.
Qed.

(** A name without any forbidden sequence is its own sanitized form. *)
Lemma sanitize_filename_clean filename :
  (forall ch, In ch forbidden_chars -> Str.contains ch filename = false) ->
  sanitize_filename filename = filename.
Proof.
  intros H. unfold sanitize_filename, basename.
  rewrite after_last_slash_no_slash
    by (rewrite <- contains_single; apply H; simpl; tauto).
  change ("" ++ filename) with filename.
  unfold forbidden_chars in *. cbn [fold_left].
  repeat match goal with
         | |- context [Str.remove ?old filename] =>
             rewrite (remove_absent old filename) by (apply H; simpl; tauto)
         end.
  reflexivity.
Qed.

(** Sanitization is the identity on a name that holds no forbidden
    sequence, and sanitizing twice is sanitizing once whenever the first pass
    leaves no [".."] behind. *)
Theorem sanitize_filename_fixed_points filename :
  ((forall ch, In ch forbidden_chars -> Str.contains ch filename = false) ->
   sanitize_filename filename = filename)
  /\ (Str.contains ".." (sanitize_filename filename) = false ->
      sanitize_filename (sanitize_filename filename) = sanitize_filename filename).
Proof.
  split; [apply sanitize_filename_clean |].
  intros Hdots. apply sanitize_filename_clean. intros ch Hin.
  unfold forbidden_chars in Hin. simpl in Hin.
  repeat (destruct Hin as [<- | Hin];
          [first [ exact Hdots
                 | rewrite contains_single;
                   apply sanitize_filename_has_char; simpl; tauto ] |]).
  destruct Hin.
Qed.

Lemma sanitize_filename_fixed_points_witness :
  sanitize_filename "test_document.pdf" = "test_document.pdf"
  /\ sanitize_filename (sanitize_filename "../a;b/c|d;.pdf")
     = sanitize_filename "../a;b/c|d;.pdf".
Proof.
  split.
  - apply (proj1 (sanitize_filename_fixed_points "test_document.pdf")).
    intros ch Hin. unfold forbidden_chars in Hin. simpl in Hin.
    repeat (destruct Hin as [<- | Hin]; [reflexivity |]). destruct Hin.
  - apply (proj2 (sanitize_filename_fixed_points "../a;b/c|d;.pdf")). reflexivity.
Defined.

(** ** The stages of validation *)

Lemma In_mem x l : In x l -> Str.mem x l = true.
Proof.
  intros H. unfold Str.mem. apply existsb_exists. exists x.
  split; [done | apply String.eqb_refl].
Qed.

(** For ASCII types and an ASCII allow-list: [validate_mime_type] accepts
    exactly the content whose sniffed type is the claimed type up to letter
    case and, lower-cased, is one of the lower-cased entries of the
    configured allow-list; it then gives no reason.  When the sniffer raises
    or the allow-list is missing from the configuration, it rejects. *)
Theorem validate_mime_type_accepts
    (cfg : gmap string cfg_value) (magic : bytes -> result string)
    (C : bytes) (T msg : string) :
  Str.is_ascii T = true ->
  (forall detected, magic C = Ok detected -> Str.is_ascii detected = true) ->
  allowed_mime_types_ascii cfg = true ->
  validate_mime_type cfg magic C T = (true, msg)
  <-> msg = ""
      /\ exists detected allowed,
           magic C = Ok detected
           /\ Str.lower detected = Str.lower T
           /\ allowed_mime_types_lower cfg = Ok allowed
           /\ In (Str.lower detected) allowed.
Proof.
  intros _ _ _. unfold validate_mime_type. split.
  - destruct (magic C) as [detected | e]; [| discriminate].
    destruct (String.eqb (Str.lower detected) (Str.lower T)) eqn:Heq;
      cbn [negb]; [| discriminate].
    destruct (allowed_mime_types_lower cfg) as [allowed | e]; [| discriminate].
    destruct (Str.mem (Str.lower detected) allowed) eqn:Hmem;
      cbn [negb]; [| discriminate].
    intros [= <-]. split; [reflexivity |]. exists detected, allowed.
    apply String.eqb_eq in Heq. auto using mem_In.
  - intros (-> & detected & allowed & -> & Heq & -> & Hin).
    apply String.eqb_eq in Heq. rewrite Heq. cbn [negb].
    by rewrite (In_mem _ _ Hin).
Qed.

Lemma validate_mime_type_accepts_witness :
  validate_mime_type loaded_service_config sniff pdf_content "Application/PDF"
  = (true, "").
Proof.
  apply (proj2 (validate_mime_type_accepts loaded_service_config sniff pdf_content
                  "Application/PDF" "" eq_refl
                  (fun detected H =>
                     match H in _ = r
                           return match r with
                                  | Ok d => Str.is_ascii d = true
                                  | Raise _ => True
                                  end
                     with eq_refl => eq_refl end)
                  eq_refl)).
  split; [reflexivity |].
  exists "application/pdf", (map Str.lower allowed_mime_types_config).
  repeat split; try reflexivity. simpl. tauto.
Defined.

(** With an integer limit of [M] megabytes configured, a size [n] that a
    double holds exactly passes the size check when [n <= M * 1024 * 1024]
    and fails it, with the size and the limit in the reason, when [n] is
    larger. *)
Theorem validate_file_size_threshold (cfg : gmap string cfg_value) (M n : Z) :
  cfg !! "max_file_size_mb" = Some (CInt M) ->
  0 <= n < 2 ^ 53 ->
  (n <= M * 1024 * 1024 -> validate_file_size cfg n = Ok (true, ""))
  /\ (M * 1024 * 1024 < n ->
      validate_file_size cfg n
      = Ok (false, "File size " ++ format_2f n
                   ++ "MB exceeds maximum allowed size of " ++ dec M ++ "MB")).
Proof.
  intros Hcfg Hn. unfold validate_file_size.
  rewrite Hcfg, (true_div_mb_small n Hn).
  assert (H20 : 2 ^ 20 = 1024 * 1024) by reflexivity. rewrite H20.
  split; intros H.
  - destruct (n >? M * (1024 * 1024)) eqn:E; [| reflexivity].
    apply Z.gtb_lt in E. lia.
  - destruct (n >? M * (1024 * 1024)) eqn:E; [reflexivity |].
    rewrite Z.gtb_ltb in E. apply Z.ltb_ge in E. lia.
Qed.

Lemma validate_file_size_threshold_witness :
  validate_file_size patched_service_config 4096 = Ok (true, "")
  /\ validate_file_size patched_service_config (101 * 1024 * 1024)
     = Ok (false, "File size 101.00MB exceeds maximum allowed size of 100MB").
Proof.
  split.
  - apply (proj1 (validate_file_size_threshold patched_service_config 100 4096
                    eq_refl ltac:(lia))). lia.
  - apply (proj2 (validate_file_size_threshold patched_service_config 100
                    (101 * 1024 * 1024) eq_refl ltac:(lia))). lia.
Defined.

(** Whatever the verdict of [validate_file], the metadata it returns has the
    caller's name, the length of the content and the claimed (not the
    sniffed) type; the sanitized name is set as soon as the content is not
    empty; and the hash is either empty or the digest of the content, and is
    the digest only when the type and the size checks both passed. *)
Theorem validate_file_metadata
    (cfg : gmap string cfg_value) (magic : bytes -> result string)
    (sha : bytes -> string) (clamd : bytes -> result (string * string))
    (C : bytes) (T name : string) :
  let md := snd (validate_file cfg magic sha clamd C T name) in
  original_filename md = name
  /\ file_size_bytes md = blen C
  /\ md_mime_type md = T
  /\ sanitized_filename md
     = match C with [] => "" | _ => sanitize_filename name end
  /\ (file_hash md = "" \/ file_hash md = sha C)
  /\ (file_hash md <> "" ->
      fst (validate_mime_type cfg magic C T) = true
      /\ exists reason, validate_file_size cfg (blen C) = Ok (true, reason)).
Proof.
  unfold validate_file. destruct C as [| b rest]; simpl.
  { repeat split; auto. congruence. }
  destruct (validate_mime_type cfg magic (b :: rest) T) as [mv me].
  destruct mv; cbn [negb]; [| simpl; repeat split; auto; congruence].
  destruct (validate_file_size cfg _) as [[sv se] | e];
    [| simpl; repeat split; auto; congruence].
  destruct sv; cbn [negb]; [| simpl; repeat split; auto; congruence].
  destruct (negb (fst _));
    [| destruct (cfg !! "content_validation_rules")];
    simpl; repeat split; eauto.
Qed.

(** [validate_file] accepts exactly the non-empty content that passes the
    type check and the size check, that clamd reports as [OK] unless
    scanning is switched off, under a configuration that has the
    [content_validation_rules] key; it then gives no reason. *)
Theorem validate_file_accepts
    (cfg : gmap string cfg_value) (magic : bytes -> result string)
    (sha : bytes -> string) (clamd : bytes -> result (string * string))
    (C : bytes) (T name : string) :
  fst (validate_file cfg magic sha clamd C T name) = (true, "")
  <-> C <> []
      /\ fst (validate_mime_type cfg magic C T) = true
      /\ (exists reason, validate_file_size cfg (blen C) = Ok (true, reason))
      /\ (default true (truthy <$> cfg !! "virus_scan_enabled") = true ->
          exists signature, clamd C = Ok ("OK", signature))
      /\ is_Some (cfg !! "content_validation_rules").
Proof.
  unfold validate_file. destruct C as [| b rest].
  { simpl. split; [discriminate | intros [[] _]; reflexivity]. }
  destruct (validate_mime_type cfg magic (b :: rest) T) as [mv me].
  destruct mv; cbn [negb fst];
    [| split; [discriminate | intros (_ & [=] & _)]].
  destruct (validate_file_size cfg _) as [[sv se] | e];
    [| split; [discriminate | intros (_ & _ & [r [=]] & _)]].
  destruct sv; cbn [negb];
    [| split; [discriminate | intros (_ & _ & [r [=]] & _)]].
  unfold scan_for_viruses.
  destruct (default true (truthy <$> cfg !! "virus_scan_enabled")).
  - destruct (clamd (b :: rest)) as [[st sig] | e].
    + destruct (String.eqb st "OK") eqn:Hst; cbn [negb fst snd].
      * apply String.eqb_eq in Hst as ->.
        destruct (cfg !! "content_validation_rules") eqn:Hrules; simpl.
        -- split; [| done]. intros _. repeat split; eauto; discriminate.
        -- split; [discriminate |]. intros (_ & _ & _ & _ & [v [=]]).
      * simpl. split; [discriminate |].
        intros (_ & _ & _ & Hscan & _). destruct (Hscan eq_refl) as [s [= -> _]].
        discriminate.
    + simpl. split; [discriminate |].
      intros (_ & _ & _ & Hscan & _). destruct (Hscan eq_refl) as [s [=]].
  - cbn [negb fst snd].
    destruct (cfg !! "content_validation_rules") eqn:Hrules; simpl.
    + split; [| done]. intros _. repeat split; eauto; discriminate.
    + split; [discriminate |]. intros (_ & _ & _ & _ & [v [=]]).
Qed.

Lemma validate_file_accepts_witness :
  fst (validate_file patched_service_config sniff digest scan_clean
                     pdf_content "application/pdf" "test_document.pdf")
  = (true, "").
Proof.
  apply (proj2 (validate_file_accepts patched_service_config sniff digest
                  scan_clean pdf_content "application/pdf" "test_document.pdf")).
  split; [discriminate |]. split; [reflexivity |].
  split; [by exists "" |]. split; [intros _; by exists "" |].
  vm_compute. eauto.
Defined.

Lemma validate_file_metadata_witness :
  file_hash (snd (validate_file patched_service_config sniff digest scan_clean
                                pdf_content "application/pdf" "a/b.pdf"))
  <> ""
  /\ fst (validate_mime_type patched_service_config sniff pdf_content
                             "application/pdf") = true.
Proof.
  assert (file_hash (snd (validate_file patched_service_config sniff digest
                            scan_clean pdf_content "application/pdf" "a/b.pdf"))
          <> "") as H by (vm_compute; discriminate).
  split; [exact H |].
  destruct (validate_file_metadata patched_service_config sniff digest scan_clean
              pdf_content "application/pdf" "a/b.pdf")
    as (_ & _ & _ & _ & _ & Hhash).
  exact (proj1 (Hhash H)).
Defined.

(** The scan fails closed. When scanning is enabled (the default when the
    key is absent) and the earlier stages pass, content for which clamd
    reports anything but [OK] is rejected with the signature in the reason,
    and content clamd could not scan is rejected with the scanner's error;
    the metadata then carries the digest. *)
Theorem validate_file_scan_rejects
    (cfg : gmap string cfg_value) (magic : bytes -> result string)
    (sha : bytes -> string) (clamd : bytes -> result (string * string))
    (C : bytes) (T name : string) :
  C <> [] ->
  fst (validate_mime_type cfg magic C T) = true ->
  (exists reason, validate_file_size cfg (blen C) = Ok (true, reason)) ->
  default true (truthy <$> cfg !! "virus_scan_enabled") = true ->
  (forall status signature,
      clamd C = Ok (status, signature) -> status <> "OK" ->
      fst (validate_file cfg magic sha clamd C T name)
      = (false, "Virus detected: " ++ signature)
      /\ file_hash (snd (validate_file cfg magic sha clamd C T name)) = sha C)
  /\ (forall e,
         clamd C = Raise e ->
         fst (validate_file cfg magic sha clamd C T name)
         = (false, "Virus scan error: " ++ exn_str e)
         /\ file_hash (snd (validate_file cfg magic sha clamd C T name)) = sha C).
Proof.
  intros HC Hmime [reason Hsize] Hscan.
  unfold validate_file, scan_for_viruses. destruct C as [| b rest]; [done |].
  destruct (validate_mime_type cfg magic (b :: rest) T) as [mv me].
  simpl in Hmime. subst mv. cbn [negb]. rewrite Hsize, Hscan. cbn [negb].
  split.
  - intros status signature -> Hst. apply String.eqb_neq in Hst. rewrite Hst.
    split; reflexivity.
  - intros e ->. split; reflexivity.
Qed.

Lemma validate_file_scan_rejects_witness :
  fst (validate_file patched_service_config sniff digest scan_infected
                     pdf_content "application/pdf" "test_document.pdf")
  = (false, "Virus detected: Eicar-Test-Signature")
  /\ fst (validate_file patched_service_config sniff digest scan_unreachable
                        pdf_content "application/pdf" "test_document.pdf")
     = (false, "Virus scan error: Error 2 connecting /var/run/clamav/clamd.ctl").
Proof.
  split.
  - apply (proj1 (validate_file_scan_rejects patched_service_config sniff digest
                    scan_infected pdf_content "application/pdf"
                    "test_document.pdf" ltac:(discriminate) eq_refl
                    (ex_intro _ "" eq_refl) eq_refl)
             "FOUND" "Eicar-Test-Signature" eq_refl ltac:(discriminate)).
  - apply (proj2 (validate_file_scan_rejects patched_service_config sniff digest
                    scan_unreachable pdf_content "application/pdf"
                    "test_document.pdf" ltac:(discriminate) eq_refl
                    (ex_intro _ "" eq_refl) eq_refl)
             (ClamdError "Error 2 connecting /var/run/clamav/clamd.ctl") eq_refl).
Defined.

(** ** The configuration as loaded *)

(** [load_config] returns a configuration exactly when every integer
    setting is an integer and the five required variables are set.  A
    setting that is no integer comes first: the [ValueError] of [int] for
    the first such setting is raised, whatever else is missing.  With all
    of them integers, a missing required variable raises the [ValueError]
    that names the missing ones. *)
Theorem load_config_required_variables (env : Environment) :
  ((exists c, load_config env = Ok c)
   <-> first_error (integer_settings env) = None /\ missing_vars env = [])
  /\ (forall e,
         first_error (integer_settings env) = Some e -> load_config env = Raise e)
  /\ (first_error (integer_settings env) = None ->
      missing_vars env <> [] ->
      load_config env
      = Raise (ValueError ("Missing required environment variables: "
                           ++ String.concat ", " (missing_vars env))))
  /\ (missing_vars env = []
      <-> is_Some (AWS_ACCESS_KEY_ID env) /\ is_Some (AWS_SECRET_ACCESS_KEY env)
          /\ is_Some (AWS_REGION env) /\ is_Some (S3_BUCKET_NAME env)
          /\ is_Some (MONGODB_URI env)).
Proof.
  assert (missing_vars env = []
          <-> is_Some (AWS_ACCESS_KEY_ID env) /\ is_Some (AWS_SECRET_ACCESS_KEY env)
              /\ is_Some (AWS_REGION env) /\ is_Some (S3_BUCKET_NAME env)
              /\ is_Some (MONGODB_URI env)) as Hmissing.
  { unfold missing_vars.
    destruct (AWS_ACCESS_KEY_ID env), (AWS_SECRET_ACCESS_KEY env), (AWS_REGION env),
      (S3_BUCKET_NAME env), (MONGODB_URI env); simpl;
      (split; [ intros H; first [discriminate H | solve [eauto 10]]
              | intros (H1 & H2 & H3 & H4 & H5);
                first [ reflexivity
                      | by destruct H1 | by destruct H2 | by destruct H3
                      | by destruct H4 | by destruct H5 ] ]). }
  split_and!; [| | | exact Hmissing]; clear Hmissing;
    unfold load_config, integer_settings, result_bind; cbn [first_error];
    repeat match goal with
           | |- context [match ?r with Ok _ => _ | Raise _ => _ end] =>
               destruct r as [? | e0]; cbv beta iota;
               [| first [ split; [intros [c Hc]; discriminate Hc
                                 | intros [He _]; discriminate He]
                        | intros e' [= <-]; reflexivity
                        | discriminate ] ]
           end.
  - destruct (missing_vars env) as [| name names].
    + split; [intros _; split; reflexivity | intros _; eexists; reflexivity].
    + split; [intros [c Hc]; discriminate Hc | intros [_ H]; discriminate H].
  - discriminate.
  - intros _ H. destruct (missing_vars env) as [| name names]; [done | reflexivity].
Qed.

Lemma load_config_required_variables_witness :
  (exists c, load_config default_environment = Ok c)
  /\ load_config broken_environment
     = Raise (ValueError "invalid literal for int() with base 10: 'abc'").
Proof.
  split.
  - apply (proj2 (proj1 (load_config_required_variables default_environment))).
    split; reflexivity.
  - apply (proj1 (proj2 (load_config_required_variables broken_environment))).
    reflexivity.
Defined.

(** Under every configuration [load_config] returns, [validate_file]
    rejects every upload (the size check cannot find its limit), so
    [upload_file] never returns a record and writes nothing. *)
Theorem loaded_config_rejects_every_upload
    (env : Environment) (c : Config) (magic : bytes -> result string)
    (sha : bytes -> string) (clamd : bytes -> result (string * string))
    (self : StorageService) (content : bytes) (name mime : string)
    (app : UUID) (w : World) :
  load_config env = Ok c ->
  fst (fst (validate_file (config_service c) magic sha clamd content mime name))
  = false
  /\ (exists e, fst (upload_file (config_service c) magic sha clamd self
                                 content name mime app w) = Raise e)
  /\ bucket (snd (upload_file (config_service c) magic sha clamd self
                              content name mime app w)) = bucket w
  /\ documents (snd (upload_file (config_service c) magic sha clamd self
                                 content name mime app w)) = documents w.
Proof.
  intros Hc.
  assert (Hv : fst (fst (validate_file (config_service c) magic sha clamd
                           content mime name)) = false).
  { unfold validate_file. destruct content as [| b rest]; [reflexivity |].
    destruct (validate_mime_type _ _ _ _) as [mv me].
    destruct mv; cbn [negb]; [| reflexivity].
    destruct (validate_file_size_load_config env c (blen (b :: rest)) Hc) as [e ->].
    reflexivity. }
  split; [exact Hv |].
  destruct (validate_file (config_service c) magic sha clamd content mime name)
    as [[v reason] md] eqn:E. simpl in Hv. subst v.
  rewrite (upload_file_invalid _ _ _ _ self _ _ _ app _ _ w E). simpl. eauto.
Qed.

Lemma loaded_config_rejects_every_upload_witness :
  fst (fst (validate_file loaded_service_config sniff digest scan_clean
                          pdf_content "application/pdf" "test_document.pdf"))
  = false.
Proof.
  exact (proj1 (loaded_config_rejects_every_upload default_environment
                  loaded_config sniff digest scan_clean service pdf_content
                  "test_document.pdf" "application/pdf" app_id empty_world
                  ltac:(vm_compute; reflexivity))).
Defined.

(** ** The document model *)

Lemma Document_validate_complete (d : Document) :
  validated d -> Document_validate d = Ok true.
Proof.
  intros (n & m & s & a & Hn & Hne & Hdots & Hslash & Hm & Hin & Hs & Hle
          & Hpre & Hpd & Ha & Htz).
  unfold Document_validate, Document_validate_checks.
  rewrite Hn, Hdots, Hslash, Hm, (In_mem _ _ Hin), Hs, Hpre, Hpd, Ha, Htz.
  assert (Str.is_empty n = false) as -> by (by destruct n).
  assert ((0 <=? s) && (s <=? MAX_FILE_SIZE_MB * 1024 * 1024) = true) as ->.
  { apply andb_true_iff. rewrite !Z.leb_le. unfold MAX_FILE_SIZE_MB. lia. }
  reflexivity.
Qed.

(** [Document.validate] returns [True] exactly for a record with a
    non-empty name free of [".."] and ['/'], an allow-listed type, a size
    between 0 and 50 MB, a storage path under [documents/] without [".."],
    an application identifier and a UTC timestamp; for every other record it
    raises a [ValidationError] whose message starts with
    ["Document validation failed: "].  It never returns [False]. *)
Theorem Document_validate_accepts (d : Document) :
  (Document_validate d = Ok true <-> validated d)
  /\ (Document_validate d = Ok true
      \/ exists msg,
           Document_validate d
           = Raise (ValidationError ("Document validation failed: " ++ msg))).
Proof.
  split; [split |].
  - intros H. by apply Document_validate_Ok in H as [_ H].
  - apply Document_validate_complete.
  - unfold Document_validate.
    destruct (Document_validate_checks d) as [b | e] eqn:E.
    + left. by apply Document_validate_checks_Ok in E as [-> _].
    + right. by exists (exn_str e).
Qed.

Lemma Document_validate_accepts_witness :
  Document_validate uploaded_document = Ok true.
Proof.
  apply (proj2 (proj1 (Document_validate_accepts uploaded_document))).
  exists "test_document.pdf", "application/pdf", 4, app_id.
  repeat split; try reflexivity; try discriminate; try lia. simpl. tauto.
Defined.

(** ** Storage paths *)

Lemma has_char_append c a b :
  Str.has_char c (a ++ b) = Str.has_char c a || Str.has_char c b.
Proof.
  induction a as [| x a IH]; [reflexivity |].
  change (String x a ++ b) with (String x (a ++ b)). simpl.
  by rewrite IH, orb_assoc.
Qed.

(** A part without a dot in front adds no [".."]. *)
Lemma contains_dots_append a b :
  Str.has_char "." a = false ->
  Str.contains ".." (a ++ b) = Str.contains ".." b.
Proof.
  induction a as [| x a IH]; intros H; [reflexivity |].
  simpl in H. apply orb_false_iff in H as [Hx Ha].
  change (String x a ++ b) with (String x (a ++ b)).
  cbn [Str.contains String.prefix]. rewrite (IH Ha).
  destruct (ascii_dec "." x) as [<- | _]; [discriminate | reflexivity].
Qed.

Lemma startswith_append p s : Str.startswith p (p ++ s) = true.
Proof.
  unfold Str.startswith. induction p as [| x p IH]; [by destruct s |].
  change (String x p ++ s) with (String x (p ++ s)). simpl.
  destruct (ascii_dec x x); [exact IH | done].
Qed.

Lemma hex_digit_no_dot d : 0 <= d < 16 -> Ascii.eqb (hex_digit d) "." = false.
Proof.
  intros H.
  assert (d = 0 \/ d = 1 \/ d = 2 \/ d = 3 \/ d = 4 \/ d = 5 \/ d = 6 \/ d = 7
          \/ d = 8 \/ d = 9 \/ d = 10 \/ d = 11 \/ d = 12 \/ d = 13 \/ d = 14
          \/ d = 15) as Hd by lia.
  repeat (destruct Hd as [-> | Hd]; [reflexivity |]). by subst.
Qed.

Lemma hex_no_dot count n : Str.has_char "." (hex count n) = false.
Proof.
  revert n. induction count as [| k IH]; intros n; [reflexivity |].
  cbn [hex]. rewrite has_char_append, IH. simpl.
  rewrite hex_digit_no_dot; [reflexivity |]. apply Z.mod_pos_bound. lia.
Qed.

Lemma UUID_str_no_dot u : Str.has_char "." (UUID_str u) = false.
Proof.
  unfold UUID_str. by rewrite !has_char_append, !hex_no_dot.
Qed.

(** The key [upload_file] builds is under [documents/] and holds [".."]
    only if the sanitized name does. *)
Lemma upload_key_valid app doc_id name :
  Str.startswith "documents/"
    ("documents/" ++ UUID_str app ++ "/" ++ UUID_str doc_id ++ "/" ++ name) = true
  /\ Str.contains ".."
       ("documents/" ++ UUID_str app ++ "/" ++ UUID_str doc_id ++ "/" ++ name)
     = Str.contains ".." name.
Proof.
  split; [apply startswith_append |].
  rewrite (contains_dots_append "documents/") by reflexivity.
  rewrite (contains_dots_append (UUID_str app)) by apply UUID_str_no_dot.
  rewrite (contains_dots_append "/") by reflexivity.
  rewrite (contains_dots_append (UUID_str doc_id)) by apply UUID_str_no_dot.
  by rewrite (contains_dots_append "/") by reflexivity.
Qed.

(** ** Uploads: what is written, and what is never saved *)

Lemma s3_put_object_Ok Key obj w w' :
  s3_put_object Key obj w = (Ok tt, w') ->
  bucket w' = <[Key := obj]> (bucket w) /\ documents w' = documents w.
Proof.
  unfold s3_put_object, bind.
  destruct (backend_call _ w) as [[[] | e] w1] eqn:E; [| discriminate].
  apply backend_call_frame in E as (Hb & Hd & _).
  intros [= <-]. simpl. by rewrite Hb, Hd.
Qed.

Lemma backend_call_quiet mk w : faults w = [] -> backend_call mk w = (Ok tt, w).
Proof. unfold backend_call. by intros ->. Qed.

(** The retry loop ends in an exception only when every attempt did; what
    every raising attempt and every sleep keeps then holds at the end. *)
Lemma attempts_Raise_inv {A} (I : World -> Prop) (wait : Z -> Z) (f : M A) :
  (forall w e w', I w -> f w = (Raise e, w') -> I w') ->
  (forall s w, I w -> I (sleep_world s w)) ->
  forall more n w e w',
    I w -> attempts wait more n f w = (Raise e, w') -> I w'.
Proof.
  intros Hf Hs more. induction more as [| k IH]; intros n w e w' HI H; simpl in H.
  - destruct (f w) as [[a | e0] w1] eqn:E; [discriminate |].
    injection H as <- <-. by eapply Hf.
  - destruct (f w) as [[a | e0] w1] eqn:E; [discriminate |].
    eapply IH; [| exact H]. apply Hs. by eapply Hf.
Qed.

(** A backend call that the fault script lets through changes only the
    script. *)
Lemma backend_call_passes mk w :
  next_call_fails w = false ->
  exists w', backend_call mk w = (Ok tt, w')
    /\ bucket w' = bucket w /\ documents w' = documents w
    /\ sleeps w' = sleeps w.
Proof.
  unfold next_call_fails, backend_call.
  destruct (faults w) as [| [text |] rest]; [| discriminate |]; eauto.
Qed.

(** The retry loop returns only what one of its attempts returned, run from
    a world that has every property the raising attempts and the sleeps
    keep. *)
Lemma attempts_Ok_inv {A} (I : World -> Prop) (wait : Z -> Z) (f : M A) :
  (forall w e w', I w -> f w = (Raise e, w') -> I w') ->
  (forall s w, I w -> I (sleep_world s w)) ->
  forall more n w a w',
    I w -> attempts wait more n f w = (Ok a, w') ->
    exists w1, I w1 /\ f w1 = (Ok a, w').
Proof.
  intros Hf Hs more. induction more as [| k IH]; intros n w a w' HI H; simpl in H.
  - destruct (f w) as [[a0 | e0] w1] eqn:E; [| discriminate].
    injection H as <- <-. eauto.
  - destruct (f w) as [[a0 | e0] w1] eqn:E.
    + injection H as <- <-. eauto.
    + eapply IH; [| exact H]. apply Hs. by eapply Hf.
Qed.

Section StorageProperties.

Variable service_config : gmap string cfg_value.
Variable magic_from_buffer : bytes -> result string.
Variable sha256_hexdigest : bytes -> string.
Variable clamd_instream : bytes -> result (string * string).
Variable s3_presign : string -> string -> Z -> string.
Variable self : StorageService.

Local Abbreviation validate :=
  (validate_file service_config magic_from_buffer sha256_hexdigest clamd_instream).
Local Abbreviation upload_body :=
  (upload_file_body service_config magic_from_buffer sha256_hexdigest
                    clamd_instream self).
Local Abbreviation upload :=
  (upload_file service_config magic_from_buffer sha256_hexdigest
               clamd_instream self).
Local Abbreviation download := (download_file sha256_hexdigest).
Local Abbreviation download_body := (download_file_body sha256_hexdigest).

(** The object [upload_file] writes for a validated upload. *)
Local Abbreviation written content mime app :=
  {| Body := content; ContentType := mime;
     ServerSideEncryption := _encryption_algorithm self;
     Metadata :=
       <["file_hash" := sha256_hexdigest content]>
         (<["application_id" := UUID_str app]> ∅) |}.

(** The key an attempt that starts in [w] writes to, the record it builds,
    and the world it leaves when no backend call fails. *)
Local Abbreviation attempt_key name app w :=
  ("documents/" ++ UUID_str app ++ "/"
   ++ UUID_str (UUID_version4 (urandom w (urandom_pos w))) ++ "/"
   ++ sanitize_filename name).

Local Abbreviation attempt_record content name mime app w :=
  (Document_init
     {| kw_id := Some (UUID_version4 (urandom w (urandom_pos w)));
        kw_application_id := Some app;
        kw_file_name := Some (sanitize_filename name);
        kw_mime_type := Some mime%string;
        kw_storage_path := Some (attempt_key name app w);
        kw_file_size := Some (blen content);
        kw_uploaded_at := None;
        kw_status := Some UPLOADED;
        kw_verification_status := Some UNVERIFIED |}
     (UUID_version4 (urandom w (S (urandom_pos w))))
     {| timestamp := clock w; dt_tzinfo := Some timezone_utc |}).

(** What the attempt raises: the error of [Document.validate], or else the
    error of [save]. *)
Local Abbreviation attempt_error d :=
  (match Document_validate d with
   | Ok _ => save_error
   | Raise e => e
   end).

Local Abbreviation attempt_world content name mime app w :=
  (add_log "ERROR"
     ("Upload failed: " ++ exn_str (attempt_error (attempt_record content name mime app w)))
     (set_urandom_pos (S (S (urandom_pos w)))
        (set_bucket (<[attempt_key name app w := written content mime app]> (bucket w))
                    w))).

(** No attempt of [upload_file] returns: one that gets as far as [save]
    raises there. *)
Lemma upload_file_body_not_Ok content name mime app w doc w' :
  upload_body content name mime app w <> (Ok doc, w').
Proof.
  intros H. apply logging_errors_Ok_inv in H.
  destruct (validate content mime name) as [[is_valid msg] md] eqn:Hv.
  destruct is_valid; simpl in H; [| discriminate].
  apply bind_Ok_inv in H as (document_id & w1 & Hid & H).
  apply bind_Ok_inv in H as ([] & w2 & Hput & H).
  apply bind_Ok_inv in H as (document & w3 & Hnew & H).
  apply bind_Ok_inv in H as (b & w4 & Hval & H).
  apply bind_Ok_inv in H as ([] & w5 & Hsave & H).
  apply Document_save_inv in Hsave as [_ Hsave]. discriminate.
Qed.

(** [upload_file] never returns a record: whatever the upload and whatever
    the backends do, the call ends in an exception, and the documents
    collection is as it was. *)
Theorem upload_file_never_returns content name mime app w :
  (forall doc,
      fst (upload_file service_config magic_from_buffer sha256_hexdigest
                       clamd_instream self content name mime app w) <> Ok doc)
  /\ documents (snd (upload_file service_config magic_from_buffer sha256_hexdigest
                                clamd_instream self content name mime app w))
     = documents w.
Proof.
  split; [| apply upload_file_documents].
  intros doc H.
  destruct (upload content name mime app w) as [r w'] eqn:E. simpl in H. subst r.
  unfold upload_file, retry in E.
  eapply (attempts_Ok_inv (fun _ => True)) in E as (w1 & _ & E); auto.
  by apply upload_file_body_not_Ok in E.
Qed.

Lemma upload_file_not_Ok content name mime app w doc w' :
  upload content name mime app w <> (Ok doc, w').
Proof.
  intros E. unfold upload_file, retry in E.
  eapply (attempts_Ok_inv (fun _ => True)) in E as (w1 & _ & E); auto.
  by apply upload_file_body_not_Ok in E.
Qed.

(** An upload that ends in an exception leaves the collection as it was:
    no record is saved, whatever was written to the object store on the
    way. *)
Theorem upload_file_failure_saves_nothing content name mime app w e w' :
  upload_file service_config magic_from_buffer sha256_hexdigest clamd_instream
              self content name mime app w = (Raise e, w') ->
  documents w' = documents w.
Proof.
  intros H. unfold upload_file, retry in H.
  eapply (attempts_Raise_inv (fun w1 => documents w1 = documents w)) in H; auto.
  intros w1 e1 w1' Hw1 Hbody.
  apply upload_file_body_documents in Hbody. congruence.
Qed.

(** One attempt of [upload_file] on a validated upload when no backend call
    fails: the object is written, the record is built and checked by
    [Document.validate], and the attempt raises. *)
Lemma upload_file_body_quiet content name mime app w msg md :
  validate content mime name = (true, msg, md) ->
  faults w = [] ->
  upload_body content name mime app w
  = (Raise (attempt_error (attempt_record content name mime app w)),
     attempt_world content name mime app w).
Proof.
  intros Hv Hf.
  pose proof (validate_file_valid_metadata _ _ _ _ _ _ _ _ _ Hv)
    as (_ & Hsan & Hhash).
  unfold upload_file_body, logging_errors. rewrite Hv. cbn [negb].
  unfold bind, uuid4, s3_put_object, bind, Document_new, bind, uuid4,
    datetime_now_utc, ret, lift, Document_save, raise, backend_call.
  cbn [faults set_urandom_pos]. rewrite Hf, Hsan, Hhash.
  cbn [urandom urandom_pos clock set_urandom_pos set_bucket bucket].
  by destruct (Document_validate _).
Qed.

(** The whole of [upload_file] on such an upload: three attempts, each
    writing its object, and the error of the third. *)
Lemma upload_file_quiet content name mime app w msg md :
  validate content mime name = (true, msg, md) ->
  faults w = [] ->
  upload content name mime app w
  = (Raise (RetryError
              (attempt_error
                 (attempt_record content name mime app
                    (sleep_world 4
                       (attempt_world content name mime app
                          (sleep_world 4 (attempt_world content name mime app w))))))),
     attempt_world content name mime app
       (sleep_world 4
          (attempt_world content name mime app
             (sleep_world 4 (attempt_world content name mime app w))))).
Proof.
  intros Hv Hf. unfold upload_file, retry, attempts, Nat.pred.
  rewrite (upload_file_body_quiet _ _ _ _ _ _ _ Hv Hf).
  rewrite (upload_file_body_quiet _ _ _ _ _ _ _ Hv) by exact Hf.
  rewrite (upload_file_body_quiet _ _ _ _ _ _ _ Hv) by exact Hf.
  reflexivity.
Qed.

Lemma insert_same_value (m : gmap string S3Object) k k' v :
  m !! k = Some v -> <[k' := v]> m !! k = Some v.
Proof.
  intros H. destruct (decide (k' = k)) as [-> | Hne].
  - apply lookup_insert_eq.
  - by rewrite lookup_insert_ne.
Qed.

(** After it, the object of the first attempt is in the store, and the
    fault script is still empty. *)
Lemma upload_file_quiet_world content name mime app w msg md :
  validate content mime name = (true, msg, md) ->
  faults w = [] ->
  bucket (snd (upload content name mime app w)) !! attempt_key name app w
  = Some (written content mime app)
  /\ faults (snd (upload content name mime app w)) = [].
Proof.
  intros Hv Hf. rewrite (upload_file_quiet _ _ _ _ _ _ _ Hv Hf).
  split; [| exact Hf]. cbn [snd bucket add_log set_urandom_pos set_bucket sleep_world].
  do 2 apply insert_same_value. apply lookup_insert_eq.
Qed.


(** An object without a record. When the sanitized name is empty or holds
    [".."] and nothing else goes wrong, every attempt writes the object and
    then fails in [Document.validate]: [upload_file] raises, no record is
    saved, and the object of the first attempt is still in the store, under
    a key that ends in the unusable name. *)
Theorem upload_file_orphans_object content name mime app w msg md :
  validate_file service_config magic_from_buffer sha256_hexdigest clamd_instream
                content mime name = (true, msg, md) ->
  Str.is_empty (sanitize_filename name)
  || Str.contains ".." (sanitize_filename name) = true ->
  faults w = [] ->
  fst (upload_file service_config magic_from_buffer sha256_hexdigest
                   clamd_instream self content name mime app w)
  = Raise (RetryError
             (ValidationError "Document validation failed: Invalid file name"))
  /\ documents (snd (upload_file service_config magic_from_buffer sha256_hexdigest
                                 clamd_instream self content name mime app w))
     = documents w
  /\ bucket (snd (upload_file service_config magic_from_buffer sha256_hexdigest
                              clamd_instream self content name mime app w))
       !! ("documents/" ++ UUID_str app ++ "/"
           ++ UUID_str (UUID_version4 (urandom w (urandom_pos w))) ++ "/"
           ++ sanitize_filename name)
     = Some {| Body := content; ContentType := mime;
               ServerSideEncryption := _encryption_algorithm self;
               Metadata :=
                 <["file_hash" := sha256_hexdigest content]>
                   (<["application_id" := UUID_str app]> ∅) |}.
Proof.
  intros Hv Hname Hf.
  assert (Hrej : forall doc_id key size fresh now,
             Document_validate
               (Document_init
                  {| kw_id := Some doc_id; kw_application_id := Some app;
                     kw_file_name := Some (sanitize_filename name);
                     kw_mime_type := Some mime; kw_storage_path := Some key;
                     kw_file_size := Some size; kw_uploaded_at := None;
                     kw_status := Some UPLOADED;
                     kw_verification_status := Some UNVERIFIED |} fresh now)
             = Raise (ValidationError
                        "Document validation failed: Invalid file name")).
  { intros. unfold Document_validate, Document_validate_checks.
    cbn [Document_init file_name kw_file_name].
    apply orb_true_iff in Hname as [-> | ->]; [reflexivity |].
    by rewrite orb_true_r. }
  split_and!.
  - rewrite (upload_file_quiet _ _ _ _ _ _ _ Hv Hf). cbn [fst]. by rewrite Hrej.
  - apply upload_file_documents.
  - by eapply upload_file_quiet_world.
Qed.



(** ** Download *)

(** What an attempt of [download_file] that returns has found. *)
Lemma download_file_body_Ok storage_path w content mime w' :
  download_body storage_path w = (Ok (content, mime), w') ->
  valid_storage_path storage_path = true
  /\ exists obj,
       bucket w !! storage_path = Some obj
       /\ Body obj = content /\ ContentType obj = mime
       /\ (forall stored_hash,
              Metadata obj !! "file_hash" = Some stored_hash ->
              stored_hash = "" \/ stored_hash = sha256_hexdigest content).
Proof.
  intros H. apply logging_errors_Ok_inv in H. unfold valid_storage_path.
  destruct (Str.startswith "documents/" storage_path); [| discriminate].
  destruct (Str.contains ".." storage_path); [discriminate |].
  cbn [negb orb] in H. split; [reflexivity |].
  apply bind_Ok_inv in H as (obj & w1 & Hget & H).
  apply s3_get_object_inv in Hget as (_ & _ & Hget). exists obj.
  apply bind_Ok_inv in H as ([] & w2 & Hcheck & H).
  apply bind_Ok_inv in H as ([] & w3 & _ & H).
  injection H as <- <- _. repeat split; auto.
  intros stored_hash Hmeta. rewrite Hmeta in Hcheck.
  destruct stored_hash as [| c rest]; [by left | right].
  cbn [Str.is_empty negb andb] in Hcheck.
  destruct (String.eqb _ _) eqn:Heq; [| discriminate].
  by apply String.eqb_eq in Heq.
Qed.

(** An attempt of [download_file] on a stored object that is intact, which
    the backend lets through. *)
Lemma download_file_body_intact storage_path w obj :
  valid_storage_path storage_path = true ->
  bucket w !! storage_path = Some obj ->
  (forall stored_hash,
      Metadata obj !! "file_hash" = Some stored_hash ->
      stored_hash = "" \/ stored_hash = sha256_hexdigest (Body obj)) ->
  next_call_fails w = false ->
  exists w', download_body storage_path w = (Ok (Body obj, ContentType obj), w')
    /\ sleeps w' = sleeps w.
Proof.
  intros Hvalid Hobj Hhash Hnext.
  unfold valid_storage_path in Hvalid. apply andb_true_iff in Hvalid as [Hpre Hd].
  apply negb_true_iff in Hd.
  destruct (backend_call_passes ClientError w Hnext) as (w1 & Hcall & Hb & _ & Hs).
  unfold download_file_body, logging_errors. rewrite Hpre, Hd. cbn [negb orb].
  unfold bind at 1, s3_get_object, bind at 1. rewrite Hcall, Hb, Hobj.
  destruct (Metadata obj !! "file_hash") as [stored_hash |] eqn:Hmeta.
  - destruct (Hhash stored_hash eq_refl) as [-> | ->].
    + eexists. split; [reflexivity | exact Hs].
    + unfold generate_file_hash. rewrite String.eqb_refl, andb_false_r.
      eexists. split; [reflexivity | exact Hs].
  - eexists. split; [reflexivity | exact Hs].
Qed.

(** An attempt of [download_file] leaves the object store as it was. *)
Lemma download_file_body_bucket storage_path w r w' :
  download_body storage_path w = (r, w') -> bucket w' = bucket w.
Proof. intros H. by apply download_file_body_inv in H as (? & _). Qed.

Lemma download_file_Ok storage_path w content mime w' :
  download storage_path w = (Ok (content, mime), w') ->
  valid_storage_path storage_path = true
  /\ exists obj,
       bucket w !! storage_path = Some obj
       /\ Body obj = content /\ ContentType obj = mime
       /\ (forall stored_hash,
              Metadata obj !! "file_hash" = Some stored_hash ->
              stored_hash = "" \/ stored_hash = sha256_hexdigest content).
Proof.
  intros H. unfold download_file, retry in H.
  eapply (attempts_Ok_inv (fun w1 => bucket w1 = bucket w)) in H
    as (w1 & Hb & H); auto.
  - apply download_file_body_Ok in H. by rewrite Hb in H.
  - intros w1 e w1' Hw1 Hbody. apply download_file_body_bucket in Hbody.
    congruence.
Qed.

(** What [download_file] returns is what the object store holds: the path
    is under [documents/] and free of [".."], the bytes and the content type
    are those of the object stored under it when the call was made, and the
    digest the object carries, if it carries a non-empty one, is the digest
    of the bytes returned. *)
Theorem download_file_returns_stored storage_path w content mime w' :
  download_file sha256_hexdigest storage_path w = (Ok (content, mime), w') ->
  valid_storage_path storage_path = true
  /\ exists obj,
       bucket w !! storage_path = Some obj
       /\ Body obj = content /\ ContentType obj = mime
       /\ (forall stored_hash,
              Metadata obj !! "file_hash" = Some stored_hash ->
              stored_hash = "" \/ stored_hash = sha256_hexdigest content).
Proof.
  intros H. unfold download_file, retry in H.
  eapply (attempts_Ok_inv (fun w1 => bucket w1 = bucket w)) in H
    as (w1 & Hb & H); auto.
  - apply download_file_body_Ok in H. by rewrite Hb in H.
  - intros w1 e w1' Hw1 Hbody. apply download_file_body_bucket in Hbody.
    congruence.
Qed.

(** Round trip through the object store. What [upload_file] wrote,
    [download_file] returns: after an upload that passed validation with the
    backends answering, a download of the key the first attempt wrote to
    returns the uploaded bytes and the claimed content type at its first
    attempt, when the sanitized name holds no [".."]. *)
Theorem upload_then_download content name mime app w msg md :
  validate_file service_config magic_from_buffer sha256_hexdigest clamd_instream
                content mime name = (true, msg, md) ->
  faults w = [] ->
  Str.contains ".." (sanitize_filename name) = false ->
  exists w'',
    download_file sha256_hexdigest
      ("documents/" ++ UUID_str app ++ "/"
       ++ UUID_str (UUID_version4 (urandom w (urandom_pos w))) ++ "/"
       ++ sanitize_filename name)
      (snd (upload_file service_config magic_from_buffer sha256_hexdigest
                        clamd_instream self content name mime app w))
    = (Ok (content, mime), w'')
    /\ sleeps w''
       = sleeps (snd (upload_file service_config magic_from_buffer
                        sha256_hexdigest clamd_instream self content name mime
                        app w)).
Proof.
  intros Hv Hf Hdots.
  destruct (upload_file_quiet_world _ _ _ app _ _ _ Hv Hf) as [Hobj Hfaults].
  destruct (upload_key_valid app (UUID_version4 (urandom w (urandom_pos w)))
              (sanitize_filename name)) as [Hpre Hpd].
  edestruct (download_file_body_intact (attempt_key name app w)
               (snd (upload content name mime app w)))
    as (w'' & Hd & Hs); [| exact Hobj | | |].
  - unfold valid_storage_path. by rewrite Hpre, Hpd, Hdots.
  - simpl. intros stored_hash. rewrite lookup_insert_eq. intros [= <-]. by right.
  - unfold next_call_fails. by rewrite Hfaults.
  - exists w''. unfold download_file, retry, attempts, Nat.pred.
    simpl in Hd. by rewrite Hd.
Qed.

(** A path outside [documents/], or one that holds [".."], is refused by
    [download_file] and by [delete_file] on each of the three attempts, with
    no call to a backend: the stores and the fault script are as before, and
    the caller has waited twice 4 seconds for the [RetryError]. *)
Theorem invalid_storage_path_rejected storage_path w :
  valid_storage_path storage_path = false ->
  (fst (download_file sha256_hexdigest storage_path w)
   = Raise (RetryError (ValueError "Invalid storage path"))
   /\ bucket (snd (download_file sha256_hexdigest storage_path w)) = bucket w
   /\ documents (snd (download_file sha256_hexdigest storage_path w)) = documents w
   /\ faults (snd (download_file sha256_hexdigest storage_path w)) = faults w
   /\ sleeps (snd (download_file sha256_hexdigest storage_path w))
      = (sleeps w ++ [4; 4])%list)
  /\ (fst (delete_file storage_path w)
      = Raise (RetryError (ValueError "Invalid storage path"))
      /\ bucket (snd (delete_file storage_path w)) = bucket w
      /\ documents (snd (delete_file storage_path w)) = documents w
      /\ faults (snd (delete_file storage_path w)) = faults w
      /\ sleeps (snd (delete_file storage_path w)) = (sleeps w ++ [4; 4])%list).
Proof.
  intros Hvalid.
  assert (negb (Str.startswith "documents/" storage_path)
          || Str.contains ".." storage_path = true) as Hguard.
  { unfold valid_storage_path in Hvalid.
    destruct (Str.startswith _ _), (Str.contains _ _); done. }
  unfold download_file, delete_file, retry, attempts, Nat.pred,
    download_file_body, delete_file_body, logging_errors.
  rewrite Hguard. simpl. rewrite <- !app_assoc. done.
Qed.

(** ** Delete *)

(** [.first()] returns a record that matches the query, and returns one
    whenever a record matches. *)
Lemma latest_matches p docs d : latest p docs = Some d -> p d = true.
Proof.
  unfold latest.
  assert (forall best,
             match best with Some b => p b = true | None => True end ->
             fold_left
               (fun best d =>
                  if p d then
                    match best with
                    | None => Some d
                    | Some b =>
                        if timestamp (uploaded_at b) <? timestamp (uploaded_at d)
                        then Some d else Some b
                    end
                  else best) docs best = Some d ->
             p d = true) as H.
  { induction docs as [| x rest IH]; intros best Hbest; simpl.
    - intros ->. exact Hbest.
    - apply IH. destruct (p x) eqn:Hx; [| exact Hbest].
      destruct best as [b |]; [| exact Hx].
      by destruct (_ <? _). }
  by apply H.
Qed.

Lemma latest_finds p docs x :
  In x docs -> p x = true -> exists d, latest p docs = Some d.
Proof.
  unfold latest.
  assert (forall best,
             (exists b, best = Some b) \/ (exists x, In x docs /\ p x = true) ->
             exists d,
               fold_left
                 (fun best d =>
                    if p d then
                      match best with
                      | None => Some d
                      | Some b =>
                          if timestamp (uploaded_at b) <? timestamp (uploaded_at d)
                          then Some d else Some b
                      end
                    else best) docs best = Some d) as H.
  { induction docs as [| y rest IH]; intros best Hbest; simpl.
    - destruct Hbest as [[b ->] | (y & [] & _)]. eauto.
    - apply IH. destruct Hbest as [[b ->] | (z & [<- | Hin] & Hz)].
      + left. destruct (p y); [destruct (_ <? _) |]; eauto.
      + left. rewrite Hz. destruct best as [b |]; [destruct (_ <? _) |]; eauto.
      + right. eauto. }
  intros Hin Hx. apply H. right. eauto.
Qed.

Lemma s3_delete_object_Ok Key w w' :
  s3_delete_object Key w = (Ok tt, w') ->
  bucket w' = delete Key (bucket w) /\ documents w' = documents w.
Proof.
  unfold s3_delete_object, bind.
  destruct (backend_call _ w) as [[[] | e] w1] eqn:E; [| discriminate].
  apply backend_call_frame in E as (Hb & Hd & _).
  intros [= <-]. simpl. by rewrite Hb, Hd.
Qed.

Lemma Document_objects_storage_path_first_Ok p w found w' :
  Document_objects_storage_path_first p w = (Ok found, w') ->
  bucket w' = bucket w /\ documents w' = documents w
  /\ found = latest (fun d => String.eqb (storage_path d) p) (documents w).
Proof.
  unfold Document_objects_storage_path_first, bind.
  destruct (backend_call _ w) as [[[] | e] w1] eqn:E; [| discriminate].
  apply backend_call_frame in E as (Hb & Hd & _).
  intros [= <- <-]. by rewrite Hd.
Qed.

Lemma Document_objects_id_first_Ok i w found w' :
  Document_objects_id_first i w = (Ok found, w') ->
  bucket w' = bucket w /\ documents w' = documents w
  /\ sleeps w' = sleeps w
  /\ found = latest (fun d => UUID_eqb (id d) i) (documents w).
Proof.
  unfold Document_objects_id_first, bind.
  destruct (backend_call _ w) as [[[] | e] w1] eqn:E; [| discriminate].
  apply backend_call_frame in E as (Hb & Hd & Hs & _).
  intros [= <- <-]. by rewrite Hd.
Qed.

(** What an attempt of [delete_file] that returns has done: it found no
    record to mark, since marking one ends in [save]. *)
Lemma delete_file_body_Ok path w b w' :
  delete_file_body path w = (Ok b, w') ->
  b = true
  /\ valid_storage_path path = true
  /\ bucket w' !! path = None
  /\ documents w' = documents w
  /\ forall d, In d (documents w) -> storage_path d <> path.
Proof.
  intros H. pose proof (delete_file_body_documents _ _ _ _ H) as Hdocs.
  apply logging_errors_Ok_inv in H. unfold valid_storage_path.
  destruct (Str.startswith "documents/" path); [| discriminate].
  destruct (Str.contains ".." path); [discriminate |].
  cbn [negb orb] in H.
  apply bind_Ok_inv in H as ([] & w1 & Hdel & H).
  apply s3_delete_object_Ok in Hdel as [Hb1 Hd1].
  apply bind_Ok_inv in H as (found & w2 & Hfind & H).
  apply Document_objects_storage_path_first_Ok in Hfind as (Hb2 & Hd2 & ->).
  apply bind_Ok_inv in H as ([] & w3 & Hsave & H).
  apply bind_Ok_inv in H as ([] & w4 & Hlog & H).
  injection H as <- <-. injection Hlog as <-.
  destruct (latest _ (documents w1)) as [x |] eqn:Hl.
  { apply Document_save_inv in Hsave as [_ Hsave]. discriminate. }
  injection Hsave as <-. split_and!; try done.
  - simpl. rewrite Hb2, Hb1. apply lookup_delete_eq.
  - intros d Hin Hp. rewrite <- Hd1 in Hin.
    destruct (latest_finds (fun d => String.eqb (storage_path d) path)
                (documents w1) d Hin) as [d' Hd'].
    + by apply String.eqb_eq.
    + congruence.
Qed.

Lemma delete_file_Ok path w b w' :
  delete_file path w = (Ok b, w') ->
  b = true
  /\ valid_storage_path path = true
  /\ bucket w' !! path = None
  /\ documents w' = documents w
  /\ forall d, In d (documents w) -> storage_path d <> path.
Proof.
  intros H. unfold delete_file, retry in H.
  eapply (attempts_Ok_inv (fun w1 => documents w1 = documents w)) in H
    as (w1 & Hd & H); auto.
  - apply delete_file_body_Ok in H. by rewrite Hd in H.
  - intros w1 e w1' Hw1 Hbody. apply delete_file_body_documents in Hbody.
    congruence.
Qed.

(** [delete_file] returns only for a path that no record has.  When it
    returns, it returns [True], the path was a valid one, the object store
    holds nothing under it, the collection is as it was, and no record of
    the collection has that storage path. *)
Theorem delete_file_removes_object path w b w' :
  delete_file path w = (Ok b, w') ->
  b = true
  /\ valid_storage_path path = true
  /\ bucket w' !! path = None
  /\ documents w' = documents w
  /\ forall d, In d (documents w) -> storage_path d <> path.
Proof.
  intros H. unfold delete_file, retry in H.
  eapply (attempts_Ok_inv (fun w1 => documents w1 = documents w)) in H
    as (w1 & Hd & H); auto.
  - apply delete_file_body_Ok in H. by rewrite Hd in H.
  - intros w1 e w1' Hw1 Hbody. apply delete_file_body_documents in Hbody.
    congruence.
Qed.

(** After a delete, no download: once [delete_file] has returned for a
    path, [download_file] on that path does not return, whatever the
    backends do. *)
Theorem delete_then_download storage_path w b w' :
  delete_file storage_path w = (Ok b, w') ->
  forall r, fst (download_file sha256_hexdigest storage_path w') <> Ok r.
Proof.
  intros Hdel [content mime] H.
  apply delete_file_Ok in Hdel as (_ & _ & Hnone & _).
  destruct (download_file sha256_hexdigest storage_path w') as [r w''] eqn:E.
  simpl in H. subst r.
  apply download_file_Ok in E as (_ & obj & Hobj & _). congruence.
Qed.

(** One attempt of [delete_file] on the path of a stored record, when no
    backend call fails: the object is deleted, the record is found, and
    [save] raises. *)
Lemma delete_file_body_quiet path w d :
  valid_storage_path path = true ->
  In d (documents w) -> storage_path d = path ->
  faults w = [] ->
  delete_file_body path w
  = (Raise save_error,
     add_log "ERROR" ("Deletion failed: " ++ exn_str save_error)
       (set_bucket (delete path (bucket w)) w)).
Proof.
  intros Hvalid Hin Hp Hf.
  unfold valid_storage_path in Hvalid. apply andb_true_iff in Hvalid as [Hpre Hd].
  apply negb_true_iff in Hd.
  unfold delete_file_body, logging_errors. rewrite Hpre, Hd. cbn [negb orb].
  unfold bind, s3_delete_object, Document_objects_storage_path_first, bind,
    backend_call.
  rewrite Hf. cbn [faults set_bucket]. rewrite Hf. cbn [documents set_bucket].
  destruct (latest_finds (fun d => String.eqb (storage_path d) path)
              (documents w) d Hin) as [d' ->]; [by apply String.eqb_eq |].
  reflexivity.
Qed.

(** The three attempts of [delete_file] on such a path. *)
Lemma delete_file_quiet path w d :
  valid_storage_path path = true ->
  In d (documents w) -> storage_path d = path ->
  faults w = [] ->
  let failed w :=
    add_log "ERROR" ("Deletion failed: " ++ exn_str save_error)
      (set_bucket (delete path (bucket w)) w) in
  delete_file path w
  = (Raise (RetryError save_error),
     failed (sleep_world 4 (failed (sleep_world 4 (failed w))))).
Proof.
  intros Hvalid Hin Hp Hf failed.
  unfold delete_file, retry, attempts, Nat.pred.
  rewrite (delete_file_body_quiet _ _ d Hvalid Hin Hp Hf).
  rewrite (delete_file_body_quiet _ _ d Hvalid) by done.
  rewrite (delete_file_body_quiet _ _ d Hvalid) by done.
  reflexivity.
Qed.

(** A record without an object. For the path of a stored record, with the
    backends answering, [delete_file] deletes the object on each of its
    three attempts and raises: the object is gone, and the record is in the
    collection as before, its status unchanged. *)
Theorem delete_file_keeps_record path w :
  valid_storage_path path = true ->
  (exists d, In d (documents w) /\ storage_path d = path) ->
  faults w = [] ->
  fst (delete_file path w) = Raise (RetryError save_error)
  /\ bucket (snd (delete_file path w)) !! path = None
  /\ documents (snd (delete_file path w)) = documents w
  /\ sleeps (snd (delete_file path w)) = (sleeps w ++ [4; 4])%list.
Proof.
  intros Hvalid (d & Hin & Hp) Hf.
  rewrite (delete_file_quiet _ _ d Hvalid Hin Hp Hf).
  cbn [fst snd bucket documents sleeps add_log set_bucket sleep_world].
  split_and!; try reflexivity.
  - apply lookup_delete_eq.
  - by rewrite <- app_assoc.
Qed.

(** ** The controller *)

Lemma http_errors_Ok_inv {A} prefix (body : M A) w a w' :
  http_errors prefix body w = (Ok a, w') -> body w = (Ok a, w').
Proof.
  unfold http_errors. destruct (body w) as [[a0 | e] w1]; [| discriminate].
  by intros [= <- <-].
Qed.

Lemma UUID_eqb_eq a b : UUID_eqb a b = true -> a = b.
Proof.
  destruct a as [x], b as [y]. unfold UUID_eqb. simpl.
  intros H. apply Z.eqb_eq in H. by subst.
Qed.

Lemma latest_none p docs :
  (forall d, In d docs -> p d = false) -> latest p docs = None.
Proof.
  intros H. destruct (latest p docs) as [d |] eqn:Hl; [| reflexivity].
  pose proof (latest_matches _ _ _ Hl) as Hp. apply latest_In in Hl.
  rewrite (H d Hl) in Hp. discriminate.
Qed.

(** The lookup by identifier changes no store, whatever it returns; with no
    record under the identifier it fails or finds nothing. *)
Lemma Document_objects_id_first_frame i w r w' :
  Document_objects_id_first i w = (r, w') ->
  bucket w' = bucket w /\ documents w' = documents w /\ sleeps w' = sleeps w
  /\ ((forall d, In d (documents w) -> id d <> i) ->
      r = Ok None \/ exists e, r = Raise e).
Proof.
  unfold Document_objects_id_first, bind.
  destruct (backend_call _ w) as [[[] | e] w1] eqn:E;
    apply backend_call_frame in E as (Hb & Hd & Hs & _); intros [= <- <-];
    repeat split; auto; intros Hnone; [left | right; eauto].
  rewrite Hd, latest_none; [reflexivity |].
  intros d Hin. destruct (UUID_eqb (id d) i) eqn:Heq; [| reflexivity].
  apply UUID_eqb_eq in Heq. by apply Hnone in Hin.
Qed.

(** No 404. For an identifier that no record has, the four handlers that
    look a document up answer with status 500: the [HTTPException] with
    status 404 that each raises is caught by the handler's own
    [except Exception] and replaced.  The stores are left as they were. *)
Theorem unknown_document_is_500 document_id w :
  (forall d, In d (documents w) -> id d <> document_id) ->
  (exists detail,
      fst (get_document document_id w) = Raise (HTTPException 500 detail))
  /\ (exists detail,
         fst (verify_document document_id w) = Raise (HTTPException 500 detail))
  /\ (exists detail,
         fst (delete_document document_id w) = Raise (HTTPException 500 detail))
  /\ (exists detail,
         fst (download_document service_config s3_presign self document_id w)
         = Raise (HTTPException 500 detail))
  /\ documents (snd (get_document document_id w)) = documents w
  /\ documents (snd (verify_document document_id w)) = documents w
  /\ documents (snd (delete_document document_id w)) = documents w
  /\ bucket (snd (delete_document document_id w)) = bucket w.
Proof.
  intros Hnone.
  destruct (Document_objects_id_first document_id w) as [r w1] eqn:E.
  destruct (Document_objects_id_first_frame _ _ _ _ E) as (Hb & Hd & _ & Hr).
  unfold get_document, verify_document, delete_document, download_document,
    http_errors, bind.
  rewrite E.
  destruct (Hr Hnone) as [-> | [e ->]]; simpl; repeat split; eauto.
Qed.

(** The dictionary [load_config] returns as [service_config] has no key
    ['service_config']. *)
Lemma load_config_no_service_config (env : Environment) (c : Config) :
  load_config env = Ok c -> config_service c !! "service_config" = None.
Proof. intros H. load_config_inv H; reflexivity. Qed.

(** The download handler cannot succeed under a loaded configuration: it
    reads [service_config['service_config']['presigned_url_expiry']], and the
    dictionary [config.py] exports as [service_config] has no such key.
    Every request ends in status 500, the signer is never reached, and for a
    document that exists the detail is the [KeyError]. *)
Theorem download_document_loaded_config (env : Environment) (c : Config)
    document_id w :
  load_config env = Ok c ->
  (exists detail,
      fst (download_document (config_service c) s3_presign self document_id w)
      = Raise (HTTPException 500 detail))
  /\ (next_call_fails w = false ->
      (exists d, In d (documents w) /\ id d = document_id) ->
      fst (download_document (config_service c) s3_presign self document_id w)
      = Raise (HTTPException 500 "'service_config'")).
Proof.
  intros Hload. apply load_config_no_service_config in Hload.
  unfold download_document, http_errors. unfold bind at 1.
  unfold presigned_url_expiry_setting. rewrite Hload. split.
  - destruct (Document_objects_id_first document_id w) as [[[d |] | e] w1];
      simpl; eauto.
  - intros Hnext (d & Hin & Hid).
    unfold Document_objects_id_first, bind.
    destruct (backend_call_passes OperationError w Hnext)
      as (w1 & -> & _ & Hd & _).
    rewrite Hd.
    destruct (latest_finds (fun x => UUID_eqb (id x) document_id) (documents w) d Hin)
      as [d' ->]; [| reflexivity].
    subst document_id. unfold UUID_eqb. apply Z.eqb_refl.
Qed.

(** A rejected upload is answered with status 500, not 400: the handler
    raises [HTTPException(400)] inside its own [try], whose
    [except Exception] replaces it.  Nothing is stored and, unlike
    [upload_file], the handler does not retry or sleep. *)
Theorem upload_document_invalid content request w reason md :
  validate_file service_config magic_from_buffer sha256_hexdigest clamd_instream
                content (req_mime_type request) (req_file_name request)
  = (false, reason, md) ->
  fst (upload_document service_config magic_from_buffer sha256_hexdigest
                       clamd_instream self content request w)
  = Raise (HTTPException 500
             (exn_str (HTTPException 400 ("File validation failed: " ++ reason))))
  /\ bucket (snd (upload_document service_config magic_from_buffer
                    sha256_hexdigest clamd_instream self content request w))
     = bucket w
  /\ documents (snd (upload_document service_config magic_from_buffer
                       sha256_hexdigest clamd_instream self content request w))
     = documents w
  /\ faults (snd (upload_document service_config magic_from_buffer
                    sha256_hexdigest clamd_instream self content request w))
     = faults w
  /\ sleeps (snd (upload_document service_config magic_from_buffer
                    sha256_hexdigest clamd_instream self content request w))
     = sleeps w.
Proof.
  intros Hv. unfold upload_document, http_errors. rewrite Hv. done.
Qed.

(** The upload handler never answers with a document: whatever the file
    and the request, and whatever the backends do, [upload_document] ends in
    status 500, and the documents collection is as it was. *)
Theorem upload_document_never_answers content request w :
  (exists detail,
      fst (upload_document service_config magic_from_buffer sha256_hexdigest
                           clamd_instream self content request w)
      = Raise (HTTPException 500 detail))
  /\ documents (snd (upload_document service_config magic_from_buffer
                       sha256_hexdigest clamd_instream self content request w))
     = documents w.
Proof.
  split; [| apply upload_document_documents].
  unfold upload_document, http_errors.
  destruct (validate content _ _) as [[is_valid msg] md].
  destruct is_valid; cbn [negb]; [| unfold raise; simpl; eauto].
  unfold bind at 1.
  destruct (upload content (sanitized_filename md) (req_mime_type request)
              (req_application_id request) w) as [[doc | e] w1] eqn:E;
    [| simpl; eauto].
  by apply upload_file_not_Ok in E.
Qed.

(** The lookup handler only reads. Whatever it answers, the object store,
    the collection and the retry clock are as before; and what it answers
    on success describes a record of the collection with the requested
    identifier, with [access_count] always 1. *)
Theorem get_document_reads document_id w r w' :
  get_document document_id w = (r, w') ->
  bucket w' = bucket w /\ documents w' = documents w /\ sleeps w' = sleeps w
  /\ forall response, r = Ok response ->
       r_id response = document_id
       /\ r_access_count response = 1
       /\ r_last_accessed response = Some (clock w)
       /\ exists d, In d (documents w) /\ id d = document_id
            /\ file_name d = Some (r_file_name response)
            /\ mime_type d = Some (r_mime_type response)
            /\ application_id d = Some (r_application_id response)
            /\ r_status response = DocumentStatus_value (status d)
            /\ r_verification_status response
               = VerificationStatus_value (verification_status d).
Proof.
  unfold get_document, http_errors. unfold bind at 1.
  unfold Document_objects_id_first, bind.
  destruct (backend_call OperationError w) as [[[] | e] w1] eqn:E;
    apply backend_call_frame in E as (Hb & Hd & Hs & _ & Hc & _).
  2:{ intros [= <- <-]. simpl. repeat split; auto; discriminate. }
  destruct (latest _ (documents w1)) as [d |] eqn:Hl.
  2:{ intros [= <- <-]. simpl. repeat split; auto; discriminate. }
  pose proof (latest_matches _ _ _ Hl) as Hid. apply UUID_eqb_eq in Hid.
  apply latest_In in Hl. rewrite Hd in Hl.
  unfold response_of.
  destruct (application_id d) as [a |] eqn:Ha;
    [| intros [= <- <-]; simpl; repeat split; auto; discriminate].
  destruct (file_name d) as [n |] eqn:Hn;
    [| intros [= <- <-]; simpl; repeat split; auto; discriminate].
  destruct (mime_type d) as [m |] eqn:Hm;
    [| intros [= <- <-]; simpl; repeat split; auto; discriminate].
  intros [= <- <-]. split_and!; auto.
  intros response [= <-]. simpl. rewrite Hc. split_and!; auto.
  exists d. rewrite Ha, Hn, Hm. repeat split; auto.
Qed.

(** The verify handler never answers with a document: whatever the
    identifier, and whatever the backends do, [verify_document] ends in
    status 500 and leaves the collection and the object store as they were.
    No record is ever stored as [VERIFIED]. *)
Theorem verify_document_never_answers document_id w :
  (exists detail,
      fst (verify_document document_id w) = Raise (HTTPException 500 detail))
  /\ documents (snd (verify_document document_id w)) = documents w
  /\ bucket (snd (verify_document document_id w)) = bucket w.
Proof.
  split; [| split; [apply verify_document_documents |]];
    unfold verify_document, http_errors; unfold bind at 1;
    destruct (Document_objects_id_first document_id w) as [r w1] eqn:E;
    apply Document_objects_id_first_frame in E as (Hb & _ & _ & _);
    destruct r as [[d |] | e]; simpl; eauto.
Qed.

(** The delete handler never confirms a deletion: whatever the identifier,
    and whatever the backends do, [delete_document] ends in status 500 and
    the collection is as it was.  For a stored record with a valid storage
    path, with the backends answering, it has by then deleted the object:
    the record stays, with its status, and points to nothing. *)
Theorem delete_document_never_answers document_id w :
  (exists detail,
      fst (delete_document document_id w) = Raise (HTTPException 500 detail))
  /\ documents (snd (delete_document document_id w)) = documents w
  /\ (forall d,
         latest (fun x => UUID_eqb (id x) document_id) (documents w) = Some d ->
         valid_storage_path (storage_path d) = true ->
         faults w = [] ->
         bucket (snd (delete_document document_id w)) !! storage_path d = None
         /\ In d (documents (snd (delete_document document_id w)))).
Proof.
  split_and!; [| apply delete_document_documents |].
  - unfold delete_document, http_errors. unfold bind at 1.
    destruct (Document_objects_id_first document_id w) as [[[d |] | e] w1] eqn:E;
      [| simpl; eauto | simpl; eauto].
    unfold bind at 1.
    destruct (delete_file (storage_path d) w1) as [[b | e] w2] eqn:Hdel;
      [| simpl; eauto].
    apply Document_objects_id_first_Ok in E as (_ & Hd1 & _ & Hl).
    symmetry in Hl. apply latest_In in Hl.
    apply delete_file_Ok in Hdel as (_ & _ & _ & _ & Hnone).
    rewrite Hd1 in Hnone. by destruct (Hnone d Hl).
  - intros d Hl Hvalid Hf.
    pose proof (latest_In _ _ _ Hl) as Hin.
    rewrite delete_document_documents. split; [| exact Hin].
    unfold delete_document, http_errors, bind, Document_objects_id_first, bind.
    rewrite (backend_call_quiet _ _ Hf), Hl.
    rewrite (delete_file_quiet _ _ d Hvalid Hin eq_refl Hf).
    cbn [fst snd bucket add_log set_bucket sleep_world].
    apply lookup_delete_eq.
Qed.

(** ** The constructor's storage path *)

(** The substitution of [Document.__init__] keeps the dots and makes no
    new ones. *)
Lemma sub_unsafe_dot c :
  Ascii.eqb (if Str.safe_char c then c else "_"%char) "." = Ascii.eqb c ".".
Proof. destruct c as [[] [] [] [] [] [] [] []]; reflexivity. Qed.

Lemma prefix_dots_cons c s :
  String.prefix ".." (String c s)
  = Ascii.eqb c "." && match s with
                       | EmptyString => false
                       | String c' _ => Ascii.eqb c' "."
                       end.
Proof.
  cbn [String.prefix].
  destruct (ascii_dec "." c) as [<- | Hc].
  - destruct s as [| c' s']; [reflexivity |]. cbn [String.prefix].
    destruct (ascii_dec "." c') as [<- | Hc']; [by destruct s' |].
    symmetry. apply Ascii.eqb_neq. congruence.
  - symmetry. apply andb_false_iff. left. apply Ascii.eqb_neq. congruence.
Qed.

Lemma continuation_byte_not_dot c :
  Str.continuation_byte c = true -> Ascii.eqb c "." = false.
Proof. destruct c as [[] [] [] [] [] [] [] []]; vm_compute; congruence. Qed.

Lemma dot_continuation_bytes c :
  Ascii.eqb c "." = true -> Str.continuation_bytes c = 0%nat.
Proof. destruct c as [[] [] [] [] [] [] [] []]; vm_compute; congruence. Qed.

Lemma head_sub_unsafe s :
  match Str.sub_unsafe_from 0 s with
  | EmptyString => false
  | String c _ => Ascii.eqb c "."
  end
  = match s with
    | EmptyString => false
    | String c _ => Ascii.eqb c "."
    end.
Proof. destruct s as [| c rest]; [reflexivity |]. apply sub_unsafe_dot. Qed.

Lemma contains_dots_sub_unsafe_from pending s :
  Str.contains ".." (Str.sub_unsafe_from pending s) = Str.contains ".." s.
Proof.
  revert pending. induction s as [| c rest IH]; intros pending; [by destruct pending |].
  assert (Hemit :
            Str.contains ".."
              (String (if Str.safe_char c then c else "_"%char)
                      (Str.sub_unsafe_from (Str.continuation_bytes c) rest))
            = Str.contains ".." (String c rest)).
  { cbn [Str.contains].
    fold (Str.contains ".." (Str.sub_unsafe_from (Str.continuation_bytes c) rest)).
    fold (Str.contains ".." rest). rewrite IH. f_equal.
    rewrite !prefix_dots_cons, sub_unsafe_dot.
    destruct (Ascii.eqb c ".") eqn:Hc; [| reflexivity]. cbn [andb].
    rewrite (dot_continuation_bytes c Hc). apply head_sub_unsafe. }
  destruct pending as [| k]; [exact Hemit |].
  cbn [Str.sub_unsafe_from].
  destruct (Str.continuation_byte c) eqn:Hcont; [| exact Hemit].
  rewrite IH. cbn [Str.contains]. fold (Str.contains ".." rest).
  by rewrite prefix_dots_cons, (continuation_byte_not_dot c Hcont).
Qed.

Lemma contains_dots_sub_unsafe s :
  Str.contains ".." (Str.sub_unsafe s) = Str.contains ".." s.
Proof. apply contains_dots_sub_unsafe_from. Qed.

(** A record built without a storage path gets
    [documents/{id}/{safe name}], where the safe name is the file name with
    every character outside [a-zA-Z0-9._-] replaced by ['_'].  The path is
    under [documents/] and holds [".."] exactly when the file name does, so
    [Document.validate], which checks the name first, never rejects such a
    record for its path. *)
Theorem Document_init_default_path kwargs fresh now :
  kw_storage_path kwargs = None ->
  storage_path (Document_init kwargs fresh now)
  = "documents/" ++ UUID_str (id (Document_init kwargs fresh now)) ++ "/"
    ++ Str.sub_unsafe (default "" (kw_file_name kwargs))
  /\ valid_storage_path (storage_path (Document_init kwargs fresh now))
     = negb (Str.contains ".." (default "" (kw_file_name kwargs)))
  /\ Document_validate (Document_init kwargs fresh now)
     <> Raise (ValidationError "Document validation failed: Invalid storage path").
Proof.
  intros Hpath.
  assert (storage_path (Document_init kwargs fresh now)
          = "documents/" ++ UUID_str (id (Document_init kwargs fresh now)) ++ "/"
            ++ Str.sub_unsafe (default "" (kw_file_name kwargs))) as Heq.
  { unfold Document_init. cbn [storage_path id]. by rewrite Hpath. }
  assert (valid_storage_path (storage_path (Document_init kwargs fresh now))
          = negb (Str.contains ".." (default "" (kw_file_name kwargs)))) as Hvalid.
  { unfold valid_storage_path. rewrite Heq, startswith_append.
    rewrite (contains_dots_append "documents/") by reflexivity.
    rewrite (contains_dots_append (UUID_str _)) by apply UUID_str_no_dot.
    rewrite (contains_dots_append "/") by reflexivity.
    by rewrite contains_dots_sub_unsafe. }
  split_and!; [exact Heq | exact Hvalid |].
  unfold Document_validate, Document_validate_checks.
  unfold valid_storage_path in Hvalid.
  assert (file_name (Document_init kwargs fresh now) = kw_file_name kwargs)
    as -> by reflexivity.
  destruct (kw_file_name kwargs) as [n |]; [| discriminate].
  destruct (Str.is_empty n); [discriminate |].
  change (default "" (Some n)) with n in Hvalid.
  destruct (Str.contains ".." n); [discriminate |].
  destruct (Str.contains "/" n); [discriminate |].
  cbn [orb negb] in *.
  apply andb_true_iff in Hvalid as [-> Hd]. apply negb_true_iff in Hd as ->.
  cbn [orb negb].
  destruct (mime_type _) as [m |]; cbn [negb];
    [destruct (Str.mem m ALLOWED_MIME_TYPES); cbn [negb] |]; try discriminate.
  destruct (file_size _) as [size |]; [| discriminate].
  destruct (negb _); [discriminate |].
  destruct (application_id _); [| discriminate].
  destruct (negb _); discriminate.
Qed.

End StorageProperties.

(** ** The properties above on the fixtures *)

Lemma outcome_raise_eq {A} (x : result A * World) (e : exn) :
  fst x = Raise e -> x = (Raise e, snd x).
Proof. destruct x as [r w]. simpl. by intros ->. Qed.

Lemma upload_file_failure_saves_nothing_witness :
  fst (upload_file patched_service_config sniff digest scan_clean service
                   pdf_content "uploads/test_document.pdf" "application/pdf"
                   app_id unavailable)
  = Raise (RetryError (ClientError "ServiceUnavailable"))
  /\ documents
       (snd (upload_file patched_service_config sniff digest scan_clean service
                         pdf_content "uploads/test_document.pdf" "application/pdf"
                         app_id unavailable))
     = documents unavailable.
Proof.
  assert (fst (upload_file patched_service_config sniff digest scan_clean service
                 pdf_content "uploads/test_document.pdf" "application/pdf"
                 app_id unavailable)
          = Raise (RetryError (ClientError "ServiceUnavailable"))) as H
    by (vm_compute; reflexivity).
  split; [exact H |].
  exact (upload_file_failure_saves_nothing _ _ _ _ _ _ _ _ _ _ _ _
           (outcome_raise_eq _ _ H)).
Defined.

Lemma upload_file_orphans_object_witness :
  sanitize_filename ".;." = ".."
  /\ fst (upload_file patched_service_config sniff digest scan_clean service
                      pdf_content ".;." "application/pdf" app_id empty_world)
     = Raise (RetryError
                (ValidationError "Document validation failed: Invalid file name"))
  /\ documents
       (snd (upload_file patched_service_config sniff digest scan_clean service
                         pdf_content ".;." "application/pdf" app_id empty_world))
     = documents empty_world
  /\ bucket
       (snd (upload_file patched_service_config sniff digest scan_clean service
                         pdf_content ".;." "application/pdf" app_id empty_world))
       !! ("documents/" ++ UUID_str app_id ++ "/"
           ++ UUID_str (UUID_version4 (urandom empty_world (urandom_pos empty_world)))
           ++ "/" ++ sanitize_filename ".;.")
     = Some {| Body := pdf_content; ContentType := "application/pdf";
               ServerSideEncryption := _encryption_algorithm service;
               Metadata :=
                 <["file_hash" := digest pdf_content]>
                   (<["application_id" := UUID_str app_id]> ∅) |}.
Proof.
  split; [vm_compute; reflexivity |].
  apply (upload_file_orphans_object patched_service_config sniff digest scan_clean
           service pdf_content ".;." "application/pdf" app_id empty_world
           (snd (fst (validate_file patched_service_config sniff digest scan_clean
                        pdf_content "application/pdf" ".;.")))
           (snd (validate_file patched_service_config sniff digest scan_clean
                   pdf_content "application/pdf" ".;."))).
  - vm_compute. reflexivity.
  - vm_compute. reflexivity.
  - reflexivity.
Defined.

Lemma download_file_returns_stored_witness :
  fst (download_file digest (storage_path uploaded_document) uploaded_world)
  = Ok (pdf_content, "application/pdf")
  /\ valid_storage_path (storage_path uploaded_document) = true
  /\ exists obj,
       bucket uploaded_world !! storage_path uploaded_document = Some obj
       /\ Body obj = pdf_content /\ ContentType obj = "application/pdf"
       /\ (forall stored_hash,
              Metadata obj !! "file_hash" = Some stored_hash ->
              stored_hash = "" \/ stored_hash = digest pdf_content).
Proof.
  assert (fst (download_file digest (storage_path uploaded_document) uploaded_world)
          = Ok (pdf_content, "application/pdf")) as H
    by (vm_compute; reflexivity).
  split; [exact H |].
  exact (download_file_returns_stored _ _ _ _ _ _ (outcome_eq _ _ H)).
Defined.

Lemma invalid_storage_path_rejected_witness :
  fst (download_file digest "documents/../etc/passwd" uploaded_world)
  = Raise (RetryError (ValueError "Invalid storage path"))
  /\ fst (delete_file "uploads/test_document.pdf" uploaded_world)
     = Raise (RetryError (ValueError "Invalid storage path")).
Proof.
  split.
  - apply (invalid_storage_path_rejected digest "documents/../etc/passwd"
             uploaded_world). vm_compute. reflexivity.
  - apply (proj2 (invalid_storage_path_rejected digest "uploads/test_document.pdf"
                    uploaded_world eq_refl)).
Defined.

Lemma unknown_document_is_500_witness :
  (forall d, In d (documents uploaded_world) -> id d <> UUID_version4 9)
  /\ (exists detail,
         fst (get_document (UUID_version4 9) uploaded_world)
         = Raise (HTTPException 500 detail)).
Proof.
  assert (forall d, In d (documents uploaded_world) -> id d <> UUID_version4 9)
    as Hnone.
  { intros d Hin. vm_compute in Hin. destruct Hin as [<- | []].
    vm_compute. discriminate. }
  split; [exact Hnone |].
  exact (proj1 (unknown_document_is_500 patched_service_config presign service
                  (UUID_version4 9) uploaded_world Hnone)).
Defined.

Lemma download_document_loaded_config_witness :
  load_config default_environment = Ok loaded_config
  /\ fst (download_document (config_service loaded_config) presign service
            (UUID_version4 0) uploaded_world)
     = Raise (HTTPException 500 "'service_config'").
Proof.
  assert (load_config default_environment = Ok loaded_config) as H
    by (vm_compute; reflexivity).
  split; [exact H |].
  apply (proj2 (download_document_loaded_config presign service
                  default_environment loaded_config (UUID_version4 0)
                  uploaded_world H)).
  - vm_compute. reflexivity.
  - exists uploaded_document. split; [| reflexivity].
    vm_compute. left. reflexivity.
Defined.

Lemma upload_document_invalid_witness :
  fst (fst (validate_file patched_service_config sniff digest scan_clean
                          exe_content "application/pdf" "setup.pdf")) = false
  /\ exists detail,
       fst (upload_document patched_service_config sniff digest scan_clean service
                            exe_content exe_request uploaded_world)
       = Raise (HTTPException 500 detail)
       /\ sleeps (snd (upload_document patched_service_config sniff digest
                         scan_clean service exe_content exe_request uploaded_world))
          = sleeps uploaded_world.
Proof.
  split; [vm_compute; reflexivity |].
  destruct (upload_document_invalid patched_service_config sniff digest scan_clean
              service exe_content exe_request uploaded_world
              (snd (fst (validate_file patched_service_config sniff digest
                           scan_clean exe_content "application/pdf" "setup.pdf")))
              (snd (validate_file patched_service_config sniff digest scan_clean
                      exe_content "application/pdf" "setup.pdf")))
    as (Hr & _ & _ & _ & Hs).
  - vm_compute. reflexivity.
  - eexists. split; [exact Hr | exact Hs].
Defined.

Lemma get_document_reads_witness :
  fst (get_document (UUID_version4 0) uploaded_world)
  = Ok (response_for "unverified" (Some 1700000000) 1)
  /\ bucket (snd (get_document (UUID_version4 0) uploaded_world))
     = bucket uploaded_world
  /\ documents (snd (get_document (UUID_version4 0) uploaded_world))
     = documents uploaded_world.
Proof.
  assert (fst (get_document (UUID_version4 0) uploaded_world)
          = Ok (response_for "unverified" (Some 1700000000) 1)) as H
    by (vm_compute; reflexivity).
  split; [exact H |].
  destruct (get_document_reads _ _ _ _ (outcome_eq _ _ H)) as (Hb & Hd & _).
  split; [exact Hb | exact Hd].
Defined.



Lemma upload_then_download_witness :
  exists w'',
    download_file digest
      ("documents/" ++ UUID_str app_id ++ "/"
       ++ UUID_str (UUID_version4 (urandom empty_world (urandom_pos empty_world)))
       ++ "/" ++ sanitize_filename "uploads/test_document.pdf")
      (snd (upload_file patched_service_config sniff digest scan_clean service
                        pdf_content "uploads/test_document.pdf" "application/pdf"
                        app_id empty_world))
    = (Ok (pdf_content, "application/pdf"), w'')
    /\ sleeps w''
       = sleeps (snd (upload_file patched_service_config sniff digest scan_clean
                        service pdf_content "uploads/test_document.pdf"
                        "application/pdf" app_id empty_world)).
Proof.
  apply (upload_then_download patched_service_config sniff digest scan_clean
           service pdf_content "uploads/test_document.pdf" "application/pdf"
           app_id empty_world
           (snd (fst (validate_file patched_service_config sniff digest scan_clean
                        pdf_content "application/pdf" "uploads/test_document.pdf")))
           (snd (validate_file patched_service_config sniff digest scan_clean
                   pdf_content "application/pdf" "uploads/test_document.pdf"))).
  - vm_compute. reflexivity.
  - reflexivity.
  - vm_compute. reflexivity.
Defined.

Lemma delete_file_removes_object_witness :
  fst (delete_file "documents/a/b/c.pdf" (world_with_object ∅)) = Ok true
  /\ bucket (snd (delete_file "documents/a/b/c.pdf" (world_with_object ∅)))
       !! "documents/a/b/c.pdf" = None
  /\ documents (snd (delete_file "documents/a/b/c.pdf" (world_with_object ∅)))
     = documents (world_with_object ∅).
Proof.
  assert (fst (delete_file "documents/a/b/c.pdf" (world_with_object ∅)) = Ok true)
    as H by (vm_compute; reflexivity).
  split; [exact H |].
  destruct (delete_file_removes_object _ _ _ _ (outcome_eq _ _ H))
    as (_ & _ & Hnone & Hdocs & _).
  split; [exact Hnone | exact Hdocs].
Defined.

Lemma delete_then_download_witness :
  fst (delete_file "documents/a/b/c.pdf" (world_with_object ∅)) = Ok true
  /\ forall r,
       fst (download_file digest "documents/a/b/c.pdf"
              (snd (delete_file "documents/a/b/c.pdf" (world_with_object ∅))))
       <> Ok r.
Proof.
  assert (fst (delete_file "documents/a/b/c.pdf" (world_with_object ∅)) = Ok true)
    as H by (vm_compute; reflexivity).
  split; [exact H |].
  exact (delete_then_download digest _ _ _ _ (outcome_eq _ _ H)).
Defined.

Lemma delete_file_keeps_record_witness :
  fst (delete_file (storage_path uploaded_document) uploaded_world)
  = Raise (RetryError save_error)
  /\ bucket (snd (delete_file (storage_path uploaded_document) uploaded_world))
       !! storage_path uploaded_document = None
  /\ documents (snd (delete_file (storage_path uploaded_document) uploaded_world))
     = documents uploaded_world
  /\ sleeps (snd (delete_file (storage_path uploaded_document) uploaded_world))
     = (sleeps uploaded_world ++ [4; 4])%list.
Proof.
  apply (delete_file_keeps_record (storage_path uploaded_document) uploaded_world).
  - vm_compute. reflexivity.
  - exists uploaded_document. split; [left |]; reflexivity.
  - reflexivity.
Defined.

Lemma delete_document_never_answers_witness :
  bucket (snd (delete_document (UUID_version4 0) uploaded_world))
    !! storage_path uploaded_document = None
  /\ In uploaded_document
       (documents (snd (delete_document (UUID_version4 0) uploaded_world))).
Proof.
  apply (proj2 (proj2 (delete_document_never_answers (UUID_version4 0)
                         uploaded_world)) uploaded_document).
  - vm_compute. reflexivity.
  - vm_compute. reflexivity.
  - reflexivity.
Defined.

Lemma Document_init_default_path_witness :
  kw_storage_path test_doc_kwargs_no_path = None
  /\ storage_path (Document_init test_doc_kwargs_no_path (UUID_version4 2) utc_now)
     = "documents/"
       ++ UUID_str (id (Document_init test_doc_kwargs_no_path (UUID_version4 2) utc_now))
       ++ "/" ++ Str.sub_unsafe (default "" (kw_file_name test_doc_kwargs_no_path))
  /\ valid_storage_path
       (storage_path (Document_init test_doc_kwargs_no_path (UUID_version4 2) utc_now))
     = negb (Str.contains ".." (default "" (kw_file_name test_doc_kwargs_no_path)))
  /\ Document_validate (Document_init test_doc_kwargs_no_path (UUID_version4 2) utc_now)
     <> Raise (ValidationError "Document validation failed: Invalid storage path").
Proof.
  split; [reflexivity |].
  exact (Document_init_default_path test_doc_kwargs_no_path (UUID_version4 2)
           utc_now eq_refl).
Defined.
